(** * Verification of [analyze_results.py] (cw-gas-test)

    The script reads a table of (Message Length, Gas Used) pairs, splits it
    with [str.isnumeric] on the first column, fits least-squares lines with
    [scipy.stats.linregress], draws two panels and prints a report.

    Conventions of the embedding.
    - A Python [str] is the list of its Unicode code points ([ustr]).
    - A [DataFrame] is the list of its rows, each with its index label, in
      frame order.  The frame is taken as the loader delivers it when the
      'Message Length' column holds text and no cell is missing.  Other
      frames are outside the embedding: on a column that is not text
      line 10 raises (the [.str] accessor exists for a text column only),
      and a missing cell is not a text.
    - Floating-point numbers are idealised by exact rationals ([Q]): the
      arithmetic of the run is followed without rounding and without
      overflow.  The one non-finite value that exact arithmetic still
      produces, the [nan] of [0.0 / 0.0], is kept ([num]).
    - Effects (calls to [linregress], to [matplotlib], [print], raised
      exceptions) are recorded by a writer/error monad ([M]). *)

From Stdlib Require Import String Ascii DecimalString.
From Stdlib Require Import List Bool Arith ZArith NArith QArith Qreduction.
From Stdlib Require Import Lia Lqa Permutation Sorted.
Import ListNotations.

(** ** Python strings *)

Definition ustr := list N.

(** Code points of an ASCII literal. *)
Fixpoint ascii_str (s : string) : ustr :=
  match s with
  | EmptyString => []
  | String a s' => N_of_ascii a :: ascii_str s'
  end.

(** Code-point ranges (inclusive) with Unicode Numeric_Type Decimal, Digit
    or Numeric: the characters for which [str.isnumeric] holds (Unicode
    14.0, as shipped with CPython 3.11). *)
Definition numeric_ranges : list (N * N) :=
  [(48, 57); (178, 179); (185, 185); (188, 190); (1632, 1641); (1776, 1785);
   (1984, 1993); (2406, 2415); (2534, 2543); (2548, 2553); (2662, 2671);
   (2790, 2799); (2918, 2927); (2930, 2935); (3046, 3058); (3174, 3183);
   (3192, 3198); (3302, 3311); (3416, 3422); (3430, 3448); (3558, 3567);
   (3664, 3673); (3792, 3801); (3872, 3891); (4160, 4169); (4240, 4249);
   (4969, 4988); (5870, 5872); (6112, 6121); (6128, 6137); (6160, 6169);
   (6470, 6479); (6608, 6618); (6784, 6793); (6800, 6809); (6992, 7001);
   (7088, 7097); (7232, 7241); (7248, 7257); (8304, 8304); (8308, 8313);
   (8320, 8329); (8528, 8578); (8581, 8585); (9312, 9371); (9450, 9471);
   (10102, 10131); (11517, 11517); (12295, 12295); (12321, 12329);
   (12344, 12346); (12690, 12693); (12832, 12841); (12872, 12879);
   (12881, 12895); (12928, 12937); (12977, 12991); (13317, 13317);
   (13443, 13443); (14378, 14378); (15181, 15181); (19968, 19968);
   (19971, 19971); (19975, 19975); (19977, 19977); (20061, 20061);
   (20108, 20108); (20116, 20116); (20118, 20118); (20159, 20160);
   (20191, 20191); (20200, 20200); (20237, 20237); (20336, 20336);
   (20740, 20740); (20806, 20806); (20841, 20841); (20843, 20843);
   (20845, 20845); (21313, 21313); (21315, 21317); (21324, 21324);
   (21441, 21444); (22235, 22235); (22769, 22769); (22777, 22777);
   (24186, 24186); (24318, 24319); (24332, 24334); (24336, 24336);
   (25342, 25342); (25420, 25420); (26578, 26578); (28422, 28422);
   (29590, 29590); (30334, 30334); (32902, 32902); (33836, 33836);
   (36014, 36014); (36019, 36019); (36144, 36144); (38433, 38433);
   (38470, 38470); (38476, 38476); (38520, 38520); (38646, 38646);
   (42528, 42537); (42726, 42735); (43056, 43061); (43216, 43225);
   (43264, 43273); (43472, 43481); (43504, 43513); (43600, 43609);
   (44016, 44025); (63851, 63851); (63859, 63859); (63864, 63864);
   (63922, 63922); (63953, 63953); (63955, 63955); (63997, 63997);
   (65296, 65305); (65799, 65843); (65856, 65912); (65930, 65931);
   (66273, 66299); (66336, 66339); (66369, 66369); (66378, 66378);
   (66513, 66517); (66720, 66729); (67672, 67679); (67705, 67711);
   (67751, 67759); (67835, 67839); (67862, 67867); (68028, 68029);
   (68032, 68047); (68050, 68095); (68160, 68168); (68221, 68222);
   (68253, 68255); (68331, 68335); (68440, 68447); (68472, 68479);
   (68521, 68527); (68858, 68863); (68912, 68921); (69216, 69246);
   (69405, 69414); (69457, 69460); (69573, 69579); (69714, 69743);
   (69872, 69881); (69942, 69951); (70096, 70105); (70113, 70132);
   (70384, 70393); (70736, 70745); (70864, 70873); (71248, 71257);
   (71360, 71369); (71472, 71483); (71904, 71922); (72016, 72025);
   (72784, 72812); (73040, 73049); (73120, 73129); (73664, 73684);
   (74752, 74862); (92768, 92777); (92864, 92873); (93008, 93017);
   (93019, 93025); (93824, 93846); (119520, 119539); (119648, 119672);
   (120782, 120831); (123200, 123209); (123632, 123641); (125127, 125135);
   (125264, 125273); (126065, 126123); (126125, 126127); (126129, 126132);
   (126209, 126253); (126255, 126269); (127232, 127244); (130032, 130041);
   (131073, 131073); (131172, 131172); (131298, 131298); (131361, 131361);
   (133418, 133418); (133507, 133507); (133516, 133516); (133532, 133532);
   (133866, 133866); (133885, 133885); (133913, 133913); (140176, 140176);
   (141720, 141720); (146203, 146203); (156269, 156269); (194704, 194704)]%N.

Definition in_range (c : N) (r : N * N) : bool :=
  (fst r <=? c)%N && (c <=? snd r)%N.

Definition numeric_char (c : N) : bool := existsb (in_range c) numeric_ranges.

(** [str.isnumeric]: every character is numeric and there is at least one. *)
Definition isnumeric (s : ustr) : bool :=
  match s with
  | [] => false
  | _ => forallb numeric_char s
  end.

(** The characters '0' .. '9'. *)
Definition ascii_digit (c : N) : bool := (48 <=? c)%N && (c <=? 57)%N.

(** "Composed entirely of decimal (ASCII) digits". *)
Definition all_ascii_digits (s : ustr) : bool := forallb ascii_digit s.

(** ** Rows and frames *)

Record Row := { message_length_raw : ustr; gas_used_raw : ustr }.

Definition DataFrame := list (nat * Row).

(** The frame of a table: rows labelled 0, 1, 2, ... (RangeIndex). *)
Definition frame_of (rows : list Row) : DataFrame :=
  combine (seq 0 (length rows)) rows.

Definition index (df : DataFrame) : list nat := map fst df.

Definition mask (e : nat * Row) : bool := isnumeric (message_length_raw (snd e)).

(** Line 10: [df[df['Message Length'].str.isnumeric()]]. *)
Definition numeric_rows (df : DataFrame) : DataFrame := filter mask df.

(** Line 82: [df[~df['Message Length'].str.isnumeric()]]. *)
Definition format_rows (df : DataFrame) : DataFrame :=
  filter (fun e => negb (mask e)) df.

(** ** Numbers *)

(** A float of the run: a finite value, idealised by a rational, or [nan]. *)
Inductive num : Type :=
| Fin (q : Q)
| NaN.

Definition fmul (a b : num) : num :=
  match a, b with
  | Fin x, Fin y => Fin (x * y)
  | _, _ => NaN
  end.

Definition fadd (a b : num) : num :=
  match a, b with
  | Fin x, Fin y => Fin (x + y)
  | _, _ => NaN
  end.

Definition fsub (a b : num) : num :=
  match a, b with
  | Fin x, Fin y => Fin (x - y)
  | _, _ => NaN
  end.

(** Division of two finite floats.  [0.0 / 0.0] is [nan]; a non-zero
    numerator over zero would be an infinity, which [linregress] never
    forms (see [ssxm_zero_ssxym_zero] below), so the zero divisor is mapped
    to [nan] throughout. *)
Definition fdiv (a b : Q) : num :=
  if Qeq_bool b 0 then NaN else Fin (a / b).

Definition num_eq (a b : num) : Prop :=
  match a, b with
  | Fin x, Fin y => x == y
  | NaN, NaN => True
  | _, _ => False
  end.

(** *** Fixed-point formatting, [f"{v:.Nf}"] *)

(** Nearest integer, ties to even. *)
Definition round_half_even (q : Q) : Z :=
  let n := Qnum q in
  let d := Zpos (Qden q) in
  let fl := (n / d)%Z in
  let r2 := (2 * (n mod d))%Z in
  if (r2 <? d)%Z then fl
  else if (d <? r2)%Z then (fl + 1)%Z
  else if Z.even fl then fl else (fl + 1)%Z.

Definition string_of_Z (z : Z) : string :=
  NilZero.string_of_uint (N.to_uint (Z.to_N z)).

Fixpoint zeros (n : nat) : string :=
  match n with
  | O => EmptyString
  | S n' => String "0" (zeros n')
  end.

Definition zero_pad (width : nat) (s : string) : string :=
  (zeros (width - String.length s) ++ s)%string.

Definition format_fixed (prec : nat) (q : Q) : string :=
  let scale := (10 ^ Z.of_nat prec)%Z in
  let a := Z.abs (round_half_even (q * inject_Z scale)) in
  let sign := if Qlt_le_dec q 0 then "-"%string else ""%string in
  let frac := if (prec =? 0)%nat then ""%string
              else ("." ++ zero_pad prec (string_of_Z (a mod scale)))%string in
  (sign ++ string_of_Z (a / scale) ++ frac)%string.

Definition format_f (prec : nat) (v : num) : string :=
  match v with
  | Fin q => format_fixed prec q
  | NaN => "nan"%string
  end.

(** ** [scipy.stats.linregress] *)

Inductive exn : Type :=
| ValueError (msg : string).

(** The result fields the script consumes.  [rvalue] reaches the script
    only as [r_value**2]; with [r = ssxym / sqrt (ssxm * ssym)] that square
    is the rational [ssxym^2 / (ssxm * ssym)], and the clamp of [r] to
    [-1, 1] is a clamp of the square to at most 1.  Like the coefficients
    it may be [nan].  [pvalue] and [stderr] are discarded by the script and
    left out. *)
Record LinregressResult := {
  slope : num;
  intercept : num;
  r_squared : num
}.

Definition Qsum (l : list Q) : Q := fold_right Qplus 0 l.

Definition Qlen (l : list Q) : Q := inject_Z (Z.of_nat (List.length l)).

(** [np.mean] *)
Definition mean (l : list Q) : Q := Qsum l / Qlen l.

Definition Qmax (a b : Q) : Q := if Qlt_le_dec a b then b else a.
Definition Qmin (a b : Q) : Q := if Qlt_le_dec b a then b else a.

(** [np.amax], [np.amin] of a non-empty array. *)
Definition amax (l : list Q) : Q :=
  match l with
  | [] => 0
  | a :: l' => fold_left Qmax l' a
  end.

Definition amin (l : list Q) : Q :=
  match l with
  | [] => 0
  | a :: l' => fold_left Qmin l' a
  end.

Definition deviations (l : list Q) : list Q :=
  let m := mean l in map (fun a => a - m) l.

Definition dot (u v : list Q) : Q :=
  Qsum (map (fun p => fst p * snd p) (combine u v)).

(** An entry of [np.cov(x, y, bias=1)]: the mean product of deviations. *)
Definition cov (x y : list Q) : Q :=
  dot (deviations x) (deviations y) / Qlen x.

(** The square of [r], where [r] is [ssxym / sqrt (ssxm * ssym)] brought
    back into [-1, 1].  When a variance is zero so is [ssxym] (see
    [ssxm_zero_ssxym_zero] and [ssym_zero_ssxym_zero] below) and the
    quotient is [0.0 / 0.0]: [r] is [nan], as in SciPy 1.16 and later
    (earlier versions set [r] to 0.0 in that case). *)
Definition rvalue_squared (ssxm ssxym ssym : Q) : num :=
  if Qeq_bool ssxm 0 || Qeq_bool ssym 0 then NaN
  else
    let r2 := (ssxym * ssxym) / (ssxm * ssym) in
    Fin (if Qlt_le_dec 1 r2 then 1 else r2).

(** [linregress(x, y)] on two columns of one frame, as SciPy computes it:
    empty input and, for more than one point, identical x values raise
    [ValueError]; otherwise [ssxm], [ssxym], [ssym] are the entries of
    [np.cov(x, y, bias=1)], [slope = ssxym / ssxm] and
    [intercept = ymean - slope * xmean]. *)
Definition linregress (x y : list Q) : exn + LinregressResult :=
  if (List.length x =? 0)%nat || (List.length y =? 0)%nat then
    inl (ValueError "Inputs must not be empty.")
  else if Qeq_bool (amax x) (amin x) && (1 <? List.length x)%nat then
    inl (ValueError
      "Cannot calculate a linear regression if all x values are identical")
  else
    let xmean := mean x in
    let ymean := mean y in
    let ssxm := cov x x in
    let ssxym := cov x y in
    let ssym := cov y y in
    let slope := fdiv ssxym ssxm in
    let intercept := fsub (Fin ymean) (fmul slope (Fin xmean)) in
    inr {| slope := slope;
           intercept := intercept;
           r_squared := rvalue_squared ssxm ssxym ssym |}.

Definition result_eq (a b : exn + LinregressResult) : Prop :=
  match a, b with
  | inl e, inl e' => e = e'
  | inr r, inr r' =>
      num_eq (slope r) (slope r') /\
      num_eq (intercept r) (intercept r') /\
      num_eq (r_squared r) (r_squared r')
  | _, _ => False
  end.

(** ** Effects *)

Inductive event : Type :=
| Call_linregress (x y : list Q)
| Plt_figure (width height : Z)
| Plt_subplot (nrows ncols idx : Z)
| Plt_scatter (x y : list Q)
| Plt_plot (x : list Q) (y : list num) (fmt label : string)
| Plt_title (s : string)
| Plt_xlabel (s : string)
| Plt_ylabel (s : string)
| Plt_legend
| Plt_grid
| Plt_tight_layout
| Plt_savefig (fname : string)
| Print (s : string)
| Print_frame (df : DataFrame).

(** [Print_frame df] is a call of [print] on the frame [df]: the event
    records which rows are handed to [print].  The text that appears is
    pandas' rendering of the frame and is not part of the embedding. *)

(** A computation: the events it performed, then an exception or a value. *)
Definition M (A : Type) : Type := (list event * (exn + A))%type.

Definition ret {A} (a : A) : M A := ([], inr a).

Definition bind {A B} (m : M A) (f : A -> M B) : M B :=
  match m with
  | (t, inl e) => (t, inl e)
  | (t, inr a) => let (t', r) := f a in (t ++ t', r)
  end.

Definition emit (e : event) : M unit := ([e], inr tt).

Definition lift {A} (r : exn + A) : M A := ([], r).

Declare Scope run_scope.
Delimit Scope run_scope with run.
Notation "x <- c1 ;; c2" := (bind c1 (fun x => c2))
  (at level 61, c1 at next level, right associativity) : run_scope.
Notation "c1 ;; c2" := (bind c1 (fun _ => c2))
  (at level 61, right associativity) : run_scope.

Definition trace {A} (m : M A) : list event := fst m.
Definition outcome {A} (m : M A) : exn + A := snd m.

(** ** The script *)

Record NumericRow := { message_length : Q; gas_used : Q }.

Definition NumericFrame := list (nat * NumericRow).

Definition nl : string := String (ascii_of_nat 10) EmptyString.

Definition out_file : string := "gas_analysis.png".
Definition small_header : string :=
  (nl ++ "Small Message Analysis (≤ 200 bytes):")%string.
Definition special_header : string := (nl ++ "Special Format Analysis:")%string.

(** The legend label of a fitted line (lines 35 and 58). *)
Definition fit_label (r : LinregressResult) : string :=
  ("y = " ++ format_f 2 (intercept r) ++ " + " ++ format_f 2 (slope r)
   ++ "x (R² = " ++ format_f 4 (r_squared r) ++ ")")%string.

(** The three report lines of a fit (lines 71-73 and 77-79). *)
Definition report (r : LinregressResult) : list event :=
  [ Print ("Base gas cost: " ++ format_f 2 (intercept r) ++ " gas units");
    Print ("Marginal cost per byte: " ++ format_f 2 (slope r) ++ " gas units");
    Print ("R-squared: " ++ format_f 4 (r_squared r)) ]%string.

(** [np.linspace(0, stop, num)] *)
Definition linspace0 (stop : Q) (n : nat) : list Q :=
  map (fun i => inject_Z (Z.of_nat i) * (stop / inject_Z (Z.of_nat (n - 1))))
      (seq 0 n).

Definition predict (r : LinregressResult) (xs : list Q) : list num :=
  map (fun t => fadd (intercept r) (fmul (slope r) (Fin t))) xs.

Definition col_length (nf : NumericFrame) : list Q :=
  map (fun e => message_length (snd e)) nf.

Definition col_gas (nf : NumericFrame) : list Q :=
  map (fun e => gas_used (snd e)) nf.

(** [sort_values('Message Length')], as a stable insertion sort.  The
    default sort of pandas is not stable: rows of equal length may come out
    in another order there. *)
Fixpoint insert_row (e : nat * NumericRow) (l : NumericFrame) : NumericFrame :=
  match l with
  | [] => [e]
  | h :: t =>
      if Qlt_le_dec (message_length (snd h)) (message_length (snd e))
      then h :: insert_row e t
      else e :: l
  end.

Definition sort_values (nf : NumericFrame) : NumericFrame :=
  fold_right insert_row [] nf.

(** Line 45: [numeric_rows[numeric_rows['Message Length'] <= 200]]. *)
Definition small_rows (nf : NumericFrame) : NumericFrame :=
  filter (fun e => Qle_bool (message_length (snd e)) 200) nf.

Definition emit_all (l : list event) : M unit := (l, inr tt).

(** The least-squares fit of a numeric frame: gas used on message length. *)
Definition fit (nf : NumericFrame) : exn + LinregressResult :=
  linregress (col_length nf) (col_gas nf).

(** A call of [stats.linregress] on the two columns, recorded in the trace. *)
Definition call_linregress (nf : NumericFrame) : M LinregressResult :=
  (emit (Call_linregress (col_length nf) (col_gas nf)) ;; lift (fit nf))%run.

(** Lines 26-44: the first panel, and the selection of the second. *)
Definition panel1 (nf : NumericFrame) (r : LinregressResult) : list event :=
  let x := col_length nf in
  let x_pred := linspace0 (amax x * (11 # 10)) 100 in
  [ Plt_figure 12 8;
    Plt_subplot 2 1 1;
    Plt_scatter x (col_gas nf);
    Plt_plot x_pred (predict r x_pred) "r--" (fit_label r);
    Plt_title "Gas Usage vs Message Length";
    Plt_xlabel "Message Length (bytes)";
    Plt_ylabel "Gas Used";
    Plt_legend;
    Plt_grid;
    Plt_subplot 2 1 2 ].

(** Lines 53-64: what the second panel shows. *)
Definition panel2 (small_df : NumericFrame) (r : LinregressResult) : list event :=
  let small_x_pred := linspace0 200 100 in
  [ Plt_scatter (col_length small_df) (col_gas small_df);
    Plt_plot small_x_pred (predict r small_x_pred) "g--" (fit_label r);
    Plt_title "Gas Usage (Small Messages)";
    Plt_xlabel "Message Length (bytes)";
    Plt_ylabel "Gas Used";
    Plt_legend;
    Plt_grid ].

(** Lines 47-64: the small-message fit and its panel, when there are rows. *)
Definition small_panel (small_df : NumericFrame) : M (option LinregressResult) :=
  match small_df with
  | [] => ret None
  | _ =>
      (r <- call_linregress small_df ;;
       emit_all (panel2 small_df r) ;;
       ret (Some r))%run
  end.

(** Lines 75-79. *)
Definition small_report (small : option LinregressResult) : M unit :=
  match small with
  | Some sr => (emit (Print small_header) ;; emit_all (report sr))%run
  | None => ret tt
  end.

(** Lines 20-79: fits, figure and report of the converted, sorted rows. *)
Definition report_stage (nf : NumericFrame) : M unit :=
  (r <- call_linregress nf ;;
   emit_all (panel1 nf r) ;;
   small <- small_panel (small_rows nf) ;;
   emit_all [ Plt_tight_layout; Plt_savefig out_file ] ;;
   emit (Print "Gas Regression Analysis:") ;;
   emit_all (report r) ;;
   small_report small)%run.

Section Script.

(** [pd.to_numeric] on one cell: [None] when the text does not parse. *)
Variable parse_numeric : ustr -> option Q.

(** [pd.to_numeric] on a column: every cell parses, or [ValueError] (whose
    message, in pandas, goes on to name the cell and its position). *)
Fixpoint to_numeric (col : list ustr) : exn + list Q :=
  match col with
  | [] => inr []
  | s :: col' =>
      match parse_numeric s with
      | None => inl (ValueError "Unable to parse string")
      | Some q =>
          match to_numeric col' with
          | inl e => inl e
          | inr l => inr (q :: l)
          end
      end
  end.

Definition make_row (i : nat) (xy : Q * Q) : nat * NumericRow :=
  (i, {| message_length := fst xy; gas_used := snd xy |}).

Definition assemble (idx : list nat) (xs ys : list Q) : NumericFrame :=
  map (fun p => make_row (fst p) (snd p)) (combine idx (combine xs ys)).

(** Lines 14-15: both columns of the numeric rows are converted. *)
Definition convert (nr : DataFrame) : M NumericFrame :=
  (xs <- lift (to_numeric (map (fun e => message_length_raw (snd e)) nr)) ;;
   ys <- lift (to_numeric (map (fun e => gas_used_raw (snd e)) nr)) ;;
   ret (assemble (index nr) xs ys))%run.

(** Lines 12-79: the regression stage, entered with a non-empty selection. *)
Definition regression_stage (nr : DataFrame) : M unit :=
  (nf <- convert nr ;; report_stage (sort_values nf))%run.

(** Lines 81-85: the special-format section. *)
Definition special_stage (df : DataFrame) : M unit :=
  match format_rows df with
  | [] => ret tt
  | fr => (emit (Print special_header) ;; emit (Print_frame fr))%run
  end.

(** The whole script, from the loaded frame on. *)
Definition analyze (df : DataFrame) : M unit :=
  ((match numeric_rows df with
    | [] => ret tt
    | nr => regression_stage nr
    end) ;;
   special_stage df)%run.

End Script.

(** ** Plain decimal literals

    The texts [pd.to_numeric] certainly converts: an optional sign, digits,
    and an optional fraction.  Used for the concrete runs below; the general
    statements hold for any cell parser. *)

Fixpoint digits_value (s : ustr) (acc : Z) : option Z :=
  match s with
  | [] => Some acc
  | c :: s' =>
      if ascii_digit c
      then digits_value s' (10 * acc + (Z.of_N c - 48))%Z
      else None
  end.

Fixpoint split_dot (s : ustr) : ustr * option ustr :=
  match s with
  | [] => ([], None)
  | c :: s' =>
      if (c =? 46)%N then ([], Some s')
      else let (a, b) := split_dot s' in (c :: a, b)
  end.

Definition parse_unsigned (s : ustr) : option Q :=
  match split_dot s with
  | ([], _) => None
  | (ip, None) => option_map inject_Z (digits_value ip 0)
  | (_, Some []) => None
  | (ip, Some fp) =>
      match digits_value ip 0, digits_value fp 0 with
      | Some n, Some m =>
          Some (Qred (inject_Z n
                      + inject_Z m / inject_Z (10 ^ Z.of_nat (List.length fp))))
      | _, _ => None
      end
  end.

Definition parse_decimal (s : ustr) : option Q :=
  match s with
  | 45%N :: s' => option_map Qopp (parse_unsigned s')
  | 43%N :: s' => parse_unsigned s'
  | _ => parse_unsigned s
  end.

Definition row (len gas : string) : Row :=
  {| message_length_raw := ascii_str len; gas_used_raw := ascii_str gas |}.

(** The table of the end-to-end example. *)
Definition example_rows : list Row :=
  [ row "10" "1200"; row "50" "3700"; row "100" "6200"; row "abc-test" "1500" ].

Definition stdout (t : list event) : list event :=
  filter (fun e => match e with Print _ | Print_frame _ => true | _ => false end) t.

Definition is_call (e : event) : bool :=
  match e with Call_linregress _ _ => true | _ => false end.

Definition calls (t : list event) : list event := filter is_call t.

(** ** Observations on a trace *)

Definition is_savefig (e : event) : bool :=
  match e with Plt_savefig _ => true | _ => false end.

Definition is_dump (e : event) : bool :=
  match e with Print_frame _ => true | _ => false end.

Definition is_plt (e : event) : bool :=
  match e with
  | Call_linregress _ _ | Print _ | Print_frame _ => false
  | _ => true
  end.

Definition is_subplot2 (e : event) : bool :=
  match e with Plt_subplot 2 1 2 => true | _ => false end.

Definition is_layout (e : event) : bool :=
  match e with Plt_tight_layout => true | _ => false end.

Fixpoint drop_until (p : event -> bool) (t : list event) : list event :=
  match t with
  | [] => []
  | e :: t' => if p e then t' else drop_until p t'
  end.

Fixpoint take_until (p : event -> bool) (t : list event) : list event :=
  match t with
  | [] => []
  | e :: t' => if p e then [] else e :: take_until p t'
  end.

(** What happens between selecting the second panel and [tight_layout]. *)
Definition second_panel (t : list event) : list event :=
  take_until is_layout (drop_until is_subplot2 t).

(** All rows of a numeric frame share one message length. *)
Definition same_length (nf : NumericFrame) : Prop :=
  forall e e', In e nf -> In e' nf ->
    message_length (snd e) == message_length (snd e').

Definition identical_x : exn :=
  ValueError "Cannot calculate a linear regression if all x values are identical".

Definition unparsable : exn := ValueError "Unable to parse string".

(** ** Concrete tables used below *)

(** A table whose first length is the single character U+00B2
    (SUPERSCRIPT TWO). *)
Definition superscript_rows : list Row :=
  [ {| message_length_raw := [178%N]; gas_used_raw := ascii_str "100" |};
    row "abc" "5" ].

(** One numeric row and one special row. *)
Definition single_rows : list Row := [ row "10" "1200"; row "abc" "7" ].

(** No numeric row. *)
Definition special_only_rows : list Row := [ row "abc" "7"; row "n/a" "9" ].

(** A numeric row whose gas cell is not a number, and a special row. *)
Definition bad_gas_rows : list Row := [ row "10" "abc"; row "x" "5" ].

(** Two numeric rows of one length. *)
Definition twin_rows : list Row := [ row "10" "1200"; row "10" "1300" ].

(** Lengths above and at the small-message bound. *)
Definition large_rows : list Row := [ row "300" "16000"; row "500" "26000" ].
Definition bound_rows : list Row :=
  [ row "200" "10700"; row "100" "5700"; row "201" "10750" ].

(** Two small rows of one length among other rows. *)
Definition small_twin_rows : list Row :=
  [ row "10" "1200"; row "10" "1300"; row "300" "16000" ].

(** The converted rows of the end-to-end example. *)
Definition example_numeric : NumericFrame :=
  [ (0%nat, {| message_length := 10; gas_used := 1200 |});
    (1%nat, {| message_length := 50; gas_used := 3700 |});
    (2%nat, {| message_length := 100; gas_used := 6200 |}) ].

(** The converted rows of [bound_rows], sorted. *)
Definition bound_numeric : NumericFrame :=
  [ (1%nat, {| message_length := 100; gas_used := 5700 |});
    (0%nat, {| message_length := 200; gas_used := 10700 |});
    (2%nat, {| message_length := 201; gas_used := 10750 |}) ].

(** Three rows on the line [gas = 700 + 50 * length]. *)
Definition collinear_numeric : NumericFrame :=
  [ (0%nat, {| message_length := 10; gas_used := 1200 |});
    (1%nat, {| message_length := 50; gas_used := 3200 |});
    (2%nat, {| message_length := 100; gas_used := 5700 |}) ].

(** Two numeric rows of one gas value, and a special row. *)
Definition flat_rows : list Row :=
  [ row "10" "500"; row "20" "500"; row "abc" "1" ].

Definition flat_numeric : NumericFrame :=
  [ (0%nat, {| message_length := 10; gas_used := 500 |});
    (1%nat, {| message_length := 20; gas_used := 500 |}) ].

(** What [linregress] returns for a single point. *)
Definition nan_result : LinregressResult :=
  {| slope := NaN; intercept := NaN; r_squared := NaN |}.

(** The converted rows of [single_rows] and of [twin_rows]. *)
Definition single_numeric : NumericFrame :=
  [ (0%nat, {| message_length := 10; gas_used := 1200 |}) ].

Definition twin_numeric : NumericFrame :=
  [ (0%nat, {| message_length := 10; gas_used := 1200 |});
    (1%nat, {| message_length := 10; gas_used := 1300 |}) ].

(** ** Notions used for the remaining statements *)

(** A cell of the row that [pd.to_numeric] cannot convert. *)
Definition unconvertible (parse : ustr -> option Q) (e : nat * Row) : Prop :=
  parse (message_length_raw (snd e)) = None \/
  parse (gas_used_raw (snd e)) = None.

(** The numeric row [n] is the row [e] with both cells converted. *)
Definition converted (parse : ustr -> option Q)
           (e : nat * Row) (n : nat * NumericRow) : Prop :=
  fst n = fst e /\
  parse (message_length_raw (snd e)) = Some (message_length (snd n)) /\
  parse (gas_used_raw (snd e)) = Some (gas_used (snd n)).

(** The same, for a row and a numeric row without their labels. *)
Definition cells_of (parse : ustr -> option Q) (r : Row) (n : NumericRow)
  : Prop :=
  parse (message_length_raw r) = Some (message_length n) /\
  parse (gas_used_raw r) = Some (gas_used n).

(** Ascending message length. *)
Definition by_length (a b : nat * NumericRow) : Prop :=
  message_length (snd a) <= message_length (snd b).

(** The small-message section of the report (lines 75-79), as printed in a
    run in which the small-message fit, if any, has returned. *)
Definition small_section (small_df : NumericFrame) : list event :=
  match small_df with
  | [] => []
  | _ => match fit small_df with
         | inr sr => Print small_header :: report sr
         | inl _ => []
         end
  end.

(** ** The partition *)

Lemma filter_split_perm {A} (f : A -> bool) (l : list A) :
  Permutation (filter f l ++ filter (fun a => negb (f a)) l) l.
Proof.
  induction l as [|a l IH]; simpl.
  - constructor.
  - destruct (f a); simpl.
    + now constructor.
    + apply Permutation_sym, Permutation_cons_app, Permutation_sym, IH.
Qed.

Lemma filter_split_excl {A} (f : A -> bool) (l : list A) (a : A) :
  ~ (In a (filter f l) /\ In a (filter (fun a => negb (f a)) l)).
Proof.
  intros [H1 H2]. apply filter_In in H1, H2.
  destruct H1 as [_ H1], H2 as [_ H2]. rewrite H1 in H2. discriminate.
Qed.

Lemma index_frame_of (rows : list Row) :
  index (frame_of rows) = seq 0 (List.length rows).
Proof.
  unfold index, frame_of. generalize 0%nat.
  induction rows as [|r rows IH]; intro k; simpl; [reflexivity|].
  now rewrite IH.
Qed.

Lemma rows_frame_of (rows : list Row) : map snd (frame_of rows) = rows.
Proof.
  unfold frame_of. generalize 0%nat.
  induction rows as [|r rows IH]; intro k; simpl; [reflexivity|].
  now rewrite IH.
Qed.

Lemma filter_labels_sorted {A} (f : nat * A -> bool) (l : list A) (k : nat) :
  StronglySorted lt (map fst (filter f (combine (seq k (List.length l)) l))).
Proof.
  revert k. induction l as [|a l IH]; intro k; simpl.
  - constructor.
  - assert (T : Forall (lt k)
                  (map fst (filter f (combine (seq (S k) (List.length l)) l)))).
    { apply Forall_forall. intros i Hi.
      apply in_map_iff in Hi. destruct Hi as [[j b] [Hj Hin]].
      simpl in Hj. subst j.
      apply filter_In in Hin. destruct Hin as [Hin _].
      apply in_combine_l, in_seq in Hin. lia. }
    destruct (f (k, a)); simpl.
    + constructor; [apply IH | exact T].
    + apply IH.
Qed.

(** C1. For every input table the two selections of lines 10 and 82 split
    it: together they hold exactly the rows of the frame (as a multiset of
    labelled rows), no labelled row is in both, every row is in one of
    them, and the index labels of the two selections together are the
    labels 0 .. n-1 of the table, each exactly once. Each selection keeps
    the order of the table. *)
Theorem partition_total_disjoint (rows : list Row) :
  Permutation (numeric_rows (frame_of rows) ++ format_rows (frame_of rows))
              (frame_of rows) /\
  (forall e, In e (frame_of rows) ->
             In e (numeric_rows (frame_of rows)) \/
             In e (format_rows (frame_of rows))) /\
  (forall e, ~ (In e (numeric_rows (frame_of rows)) /\
                In e (format_rows (frame_of rows)))) /\
  Permutation (index (numeric_rows (frame_of rows))
                 ++ index (format_rows (frame_of rows)))
              (seq 0 (List.length rows)) /\
  NoDup (index (numeric_rows (frame_of rows))
           ++ index (format_rows (frame_of rows))) /\
  StronglySorted lt (index (numeric_rows (frame_of rows))) /\
  StronglySorted lt (index (format_rows (frame_of rows))).
Proof.
  set (df := frame_of rows).
  assert (P : Permutation (numeric_rows df ++ format_rows df) df)
    by apply filter_split_perm.
  assert (I : Permutation (index (numeric_rows df) ++ index (format_rows df))
                          (seq 0 (List.length rows))).
  { unfold index. rewrite <- map_app, <- index_frame_of.
    now apply Permutation_map. }
  repeat split.
  - exact P.
  - intros e He. apply in_app_or.
    eapply Permutation_in; [apply Permutation_sym, P | exact He].
  - intro e. apply filter_split_excl.
  - exact I.
  - eapply Permutation_NoDup; [apply Permutation_sym, I | apply seq_NoDup].
  - apply filter_labels_sorted.
  - apply filter_labels_sorted.
Qed.

(** ** The numeric-length predicate *)

Lemma existsb_in_range_above (c lo : N) (rs : list (N * N)) :
  (c < lo)%N ->
  forallb (fun r => (lo <=? fst r)%N) rs = true ->
  existsb (in_range c) rs = false.
Proof.
  intros Hc. induction rs as [|r rs IH]; simpl; intro H; [reflexivity|].
  apply andb_true_iff in H. destruct H as [Hr Hrs].
  rewrite (IH Hrs), orb_false_r. unfold in_range.
  apply N.leb_le in Hr.
  apply andb_false_iff. left. apply N.leb_gt. lia.
Qed.

(** On ASCII characters [numeric_char] is the test for '0' .. '9'. *)
Lemma numeric_char_ascii (c : N) :
  (c < 128)%N -> numeric_char c = ascii_digit c.
Proof.
  intro Hc. unfold numeric_char.
  assert (R : forallb (fun r => (128 <=? fst r)%N) (tl numeric_ranges) = true)
    by (vm_compute; reflexivity).
  change numeric_ranges with ((48, 57)%N :: tl numeric_ranges).
  remember (tl numeric_ranges) as rest eqn:E. clear E.
  cbn [existsb].
  rewrite (existsb_in_range_above c 128%N rest Hc R).
  now rewrite orb_false_r.
Qed.

Lemma ascii_digit_lt (c : N) : ascii_digit c = true -> (c < 128)%N.
Proof.
  unfold ascii_digit. intro H. apply andb_true_iff in H.
  destruct H as [_ H]. apply N.leb_le in H. lia.
Qed.

(** Every non-empty string of ASCII digits is numeric. *)
Lemma isnumeric_ascii_digits (s : ustr) :
  s <> [] -> all_ascii_digits s = true -> isnumeric s = true.
Proof.
  intros Hs H. destruct s as [|c s]; [congruence|].
  unfold isnumeric. unfold all_ascii_digits in H.
  rewrite forallb_forall in *. intros a Ha.
  specialize (H a Ha). rewrite numeric_char_ascii; auto using ascii_digit_lt.
Qed.

(** Among ASCII strings (signs, points and exponents included) the numeric
    ones are exactly the non-empty digit strings. *)
Lemma isnumeric_ascii (s : ustr) :
  Forall (fun c => (c < 128)%N) s ->
  isnumeric s = negb (Nat.eqb (List.length s) 0) && all_ascii_digits s.
Proof.
  intro H. destruct s as [|c s]; [reflexivity|].
  unfold isnumeric, all_ascii_digits. simpl negb. rewrite andb_true_l.
  induction H as [|a l Ha Hl IH]; [reflexivity|].
  simpl. now rewrite IH, numeric_char_ascii.
Qed.

(** C3. The predicate of line 10 is [str.isnumeric], which also holds for
    non-ASCII numeric characters: the one-character length U+00B2 is not a
    string of ASCII digits, is selected as numeric, and the conversion of
    line 14 then fails on it, so the run stops before anything is drawn or
    printed. *)
Theorem isnumeric_accepts_superscript :
  all_ascii_digits [178%N] = false /\
  isnumeric [178%N] = true /\
  index (numeric_rows (frame_of superscript_rows)) = [0%nat] /\
  analyze parse_decimal (frame_of superscript_rows) = ([], inl unparsable).
Proof. repeat split; vm_compute; reflexivity. Qed.

(** ** The flow of the script *)

Lemma bind_value {A B} (t : list event) (a : A) (f : A -> M B) :
  bind (t, inr a) f = (t ++ trace (f a), outcome (f a)).
Proof. unfold bind, trace, outcome. now destruct (f a). Qed.

Lemma bind_raise {A B} (t : list event) (e : exn) (f : A -> M B) :
  bind (t, inl e) f = (t, inl e).
Proof. reflexivity. Qed.

Lemma M_eta {A} (m : M A) : m = (trace m, outcome m).
Proof. now destruct m. Qed.

Lemma convert_trace parse (nr : DataFrame) : trace (convert parse nr) = [].
Proof.
  unfold convert, lift.
  destruct (to_numeric parse (map (fun e => message_length_raw (snd e)) nr));
    [reflexivity|].
  rewrite bind_value.
  destruct (to_numeric parse (map (fun e => gas_used_raw (snd e)) nr));
    reflexivity.
Qed.

Lemma special_stage_eq (df : DataFrame) :
  special_stage df =
  (match format_rows df with
   | [] => []
   | fr => [Print special_header; Print_frame fr]
   end, inr tt).
Proof. unfold special_stage. now destruct (format_rows df). Qed.

(** With no numeric row the script is its special-format section. *)
Lemma analyze_no_numeric parse (df : DataFrame) :
  numeric_rows df = [] -> analyze parse df = special_stage df.
Proof.
  intro H. unfold analyze. rewrite H. unfold ret. rewrite bind_value.
  simpl. symmetry. apply M_eta.
Qed.

(** With numeric rows that convert, the script is the report stage on the
    sorted rows, then the special-format section. *)
Lemma analyze_numeric parse (df : DataFrame) (nf : NumericFrame) :
  numeric_rows df <> [] ->
  outcome (convert parse (numeric_rows df)) = inr nf ->
  analyze parse df =
  bind (report_stage (sort_values nf)) (fun _ => special_stage df).
Proof.
  intros Hne Hc. unfold analyze.
  destruct (numeric_rows df) as [|e nr] eqn:E; [congruence|].
  unfold regression_stage.
  rewrite (M_eta (convert parse (e :: nr))), convert_trace, Hc, bind_value.
  rewrite app_nil_l. now rewrite <- M_eta.
Qed.

(** A failed conversion stops the script at once. *)
Lemma analyze_unconverted parse (df : DataFrame) (e : exn) :
  outcome (convert parse (numeric_rows df)) = inl e ->
  analyze parse df = ([], inl e).
Proof.
  intros Hc. unfold analyze.
  destruct (numeric_rows df) as [|e0 nr] eqn:E.
  - unfold convert, lift in Hc. simpl in Hc. discriminate.
  - unfold regression_stage.
    now rewrite (M_eta (convert parse (e0 :: nr))), convert_trace, Hc.
Qed.

Lemma call_linregress_eq (nf : NumericFrame) :
  call_linregress nf =
  ([Call_linregress (col_length nf) (col_gas nf)], fit nf).
Proof. unfold call_linregress, emit, lift. now rewrite bind_value. Qed.

(** The report stage when the full fit raises. *)
Lemma report_stage_raise (nf : NumericFrame) (e : exn) :
  fit nf = inl e ->
  report_stage nf = ([Call_linregress (col_length nf) (col_gas nf)], inl e).
Proof.
  intro H. unfold report_stage. now rewrite call_linregress_eq, H.
Qed.

(** The report stage when there is no small row. *)
Lemma report_stage_no_small (nf : NumericFrame) (r : LinregressResult) :
  fit nf = inr r ->
  small_rows nf = [] ->
  report_stage nf =
  (Call_linregress (col_length nf) (col_gas nf) :: panel1 nf r
     ++ [Plt_tight_layout; Plt_savefig out_file;
         Print "Gas Regression Analysis:"] ++ report r,
   inr tt).
Proof.
  intros H Hs. unfold report_stage.
  rewrite call_linregress_eq, H, Hs.
  unfold small_panel, small_report, emit_all, emit, ret.
  repeat rewrite bind_value. cbn [trace outcome fst snd].
  now rewrite ?app_nil_r, <- ?app_assoc.
Qed.

(** The report stage when the small-message fit raises. *)
Lemma report_stage_small_raise (nf : NumericFrame) (r : LinregressResult)
      (e : exn) :
  fit nf = inr r ->
  small_rows nf <> [] ->
  fit (small_rows nf) = inl e ->
  report_stage nf =
  (Call_linregress (col_length nf) (col_gas nf) :: panel1 nf r
     ++ [Call_linregress (col_length (small_rows nf)) (col_gas (small_rows nf))],
   inl e).
Proof.
  intros H Hne Hs. unfold report_stage.
  rewrite call_linregress_eq, H.
  unfold small_panel.
  destruct (small_rows nf) as [|s0 sm] eqn:E; [congruence|].
  rewrite call_linregress_eq, Hs.
  unfold emit_all. repeat rewrite bind_value. cbn [trace outcome fst snd].
  rewrite bind_raise. cbn [trace outcome fst snd].
  rewrite bind_raise. reflexivity.
Qed.

(** The report stage when both fits return. *)
Lemma report_stage_small (nf : NumericFrame) (r sr : LinregressResult) :
  fit nf = inr r ->
  small_rows nf <> [] ->
  fit (small_rows nf) = inr sr ->
  report_stage nf =
  (Call_linregress (col_length nf) (col_gas nf) :: panel1 nf r
     ++ Call_linregress (col_length (small_rows nf)) (col_gas (small_rows nf))
     :: panel2 (small_rows nf) sr
     ++ [Plt_tight_layout; Plt_savefig out_file;
         Print "Gas Regression Analysis:"] ++ report r
     ++ Print small_header :: report sr,
   inr tt).
Proof.
  intros H Hne Hs. unfold report_stage.
  rewrite call_linregress_eq, H.
  unfold small_panel.
  destruct (small_rows nf) as [|s0 sm] eqn:E; [congruence|].
  rewrite call_linregress_eq, Hs.
  unfold small_report, emit_all, emit, ret.
  repeat (rewrite bind_value; cbn [trace outcome fst snd]).
  now rewrite ?app_nil_r, <- ?app_assoc.
Qed.

Lemma analyze_trace_numeric parse (df : DataFrame) (nf : NumericFrame) :
  numeric_rows df <> [] ->
  outcome (convert parse (numeric_rows df)) = inr nf ->
  outcome (report_stage (sort_values nf)) = inr tt ->
  analyze parse df =
  (trace (report_stage (sort_values nf)) ++ trace (special_stage df), inr tt).
Proof.
  intros Hne Hc Hr. rewrite (analyze_numeric parse df nf Hne Hc).
  rewrite (M_eta (report_stage (sort_values nf))), Hr, bind_value.
  now rewrite special_stage_eq.
Qed.

Lemma analyze_raise_numeric parse (df : DataFrame) (nf : NumericFrame) (e : exn) :
  numeric_rows df <> [] ->
  outcome (convert parse (numeric_rows df)) = inr nf ->
  outcome (report_stage (sort_values nf)) = inl e ->
  analyze parse df = (trace (report_stage (sort_values nf)), inl e).
Proof.
  intros Hne Hc Hr. rewrite (analyze_numeric parse df nf Hne Hc).
  now rewrite (M_eta (report_stage (sort_values nf))), Hr, bind_raise.
Qed.

(** The report stage prints no frame, whatever its fits do. *)
Lemma report_stage_no_dump (nf : NumericFrame) :
  filter is_dump (trace (report_stage nf)) = [].
Proof.
  destruct (fit nf) as [e|r] eqn:F.
  - now rewrite (report_stage_raise nf _ F).
  - destruct (small_rows nf) as [|s0 sm] eqn:S.
    + now rewrite (report_stage_no_small nf _ F S).
    + assert (Hne : small_rows nf <> []) by (rewrite S; discriminate).
      destruct (fit (small_rows nf)) as [e|sr] eqn:Fs.
      * now rewrite (report_stage_small_raise nf _ _ F Hne Fs).
      * now rewrite (report_stage_small nf _ _ F Hne Fs).
Qed.

(** ** Skipping the regression *)

(** C2, as the code has it. With no numeric row the regression stage is
    skipped: [linregress] is not called, nothing is drawn, no report is
    printed, and the special-format section still prints its dump when
    there are special rows. With one or more numeric rows whose cells
    convert (a single row included) the fit is invoked first thing. *)
Theorem fit_skipped_without_numeric_rows parse (df : DataFrame) :
  (numeric_rows df = [] ->
     let t := trace (analyze parse df) in
     calls t = [] /\ filter is_plt t = [] /\
     stdout t = match format_rows df with
                | [] => []
                | fr => [Print special_header; Print_frame fr]
                end /\
     outcome (analyze parse df) = inr tt) /\
  (forall nf, numeric_rows df <> [] ->
     outcome (convert parse (numeric_rows df)) = inr nf ->
     hd_error (trace (analyze parse df)) =
     Some (Call_linregress (col_length (sort_values nf))
                           (col_gas (sort_values nf)))).
Proof.
  split.
  - intros H t. subst t. rewrite (analyze_no_numeric parse df H).
    rewrite special_stage_eq. cbn [trace outcome fst snd].
    destruct (format_rows df); repeat split; reflexivity.
  - intros nf Hne Hc. rewrite (analyze_numeric parse df nf Hne Hc).
    unfold report_stage. rewrite call_linregress_eq.
    destruct (fit (sort_values nf)) as [e|r].
    + reflexivity.
    + rewrite bind_value.
      match goal with |- context [outcome ?m] => destruct (outcome m) end;
        [rewrite bind_raise | rewrite bind_value]; reflexivity.
Qed.

Lemma fit_skipped_without_numeric_rows_witness :
  numeric_rows (frame_of special_only_rows) = [] /\
  calls (trace (analyze parse_decimal (frame_of special_only_rows))) = [] /\
  outcome (analyze parse_decimal (frame_of special_only_rows)) = inr tt.
Proof.
  assert (H : numeric_rows (frame_of special_only_rows) = []) by reflexivity.
  destruct (fit_skipped_without_numeric_rows parse_decimal
              (frame_of special_only_rows)) as [Skip _].
  destruct (Skip H) as [C [_ [_ O]]].
  exact (conj H (conj C O)).
Defined.

(** C2 as stated fails: a table with exactly one numeric row is not
    skipped. The fit is invoked (for the full and for the small panel), the
    image is saved and a report with nan coefficients is printed. *)
Lemma single_numeric_row_is_fitted :
  let df := frame_of single_rows in
  let t := trace (analyze parse_decimal df) in
  List.length (numeric_rows df) = 1%nat /\
  calls t = [Call_linregress [10] [1200]; Call_linregress [10] [1200]] /\
  filter is_savefig t = [Plt_savefig out_file] /\
  stdout t =
    [ Print "Gas Regression Analysis:";
      Print "Base gas cost: nan gas units";
      Print "Marginal cost per byte: nan gas units";
      Print "R-squared: nan";
      Print small_header;
      Print "Base gas cost: nan gas units";
      Print "Marginal cost per byte: nan gas units";
      Print "R-squared: nan";
      Print special_header;
      Print_frame [(1%nat, row "abc" "7")] ] /\
  outcome (analyze parse_decimal df) = inr tt.
Proof. repeat split; vm_compute; reflexivity. Qed.

(** C9. With no numeric row no image is written: the trace holds no
    [savefig] (nor any other drawing call), and all the run produces is the
    special-format header and dump, when there are special rows. *)
Theorem no_numeric_rows_no_image parse (df : DataFrame) :
  numeric_rows df = [] ->
  filter is_savefig (trace (analyze parse df)) = [] /\
  analyze parse df =
  (match format_rows df with
   | [] => []
   | fr => [Print special_header; Print_frame fr]
   end, inr tt).
Proof.
  intro H. rewrite (analyze_no_numeric parse df H), special_stage_eq.
  split; [|reflexivity].
  cbn [trace fst]. now destruct (format_rows df).
Qed.

Lemma no_numeric_rows_no_image_witness :
  numeric_rows (frame_of special_only_rows) = [] /\
  filter is_savefig
    (trace (analyze parse_decimal (frame_of special_only_rows))) = [].
Proof.
  assert (H : numeric_rows (frame_of special_only_rows) = []) by reflexivity.
  exact (conj H (proj1 (no_numeric_rows_no_image parse_decimal
                          (frame_of special_only_rows) H))).
Defined.

(** ** The special-format dump *)


(** C8, as the code has it. [print] is called on a frame exactly when the
    run reaches the special-format section (nothing raised before it) and
    there are special rows; it is then called once, and the frame handed to
    it holds exactly the labelled rows of the table that fail the
    predicate, in the order of the table. A run stopped by an error prints
    no dump. *)
Theorem dump_iff_special_rows parse (rows : list Row) :
  filter is_dump (trace (analyze parse (frame_of rows))) =
    match outcome (analyze parse (frame_of rows)),
          format_rows (frame_of rows) with
    | inr _, (_ :: _) as fr => [Print_frame fr]
    | _, _ => []
    end /\
  (forall e, In e (format_rows (frame_of rows)) <->
             In e (frame_of rows) /\
             isnumeric (message_length_raw (snd e)) = false) /\
  StronglySorted lt (index (format_rows (frame_of rows))).
Proof.
  split; [|split].
  - assert (Sp : filter is_dump (trace (special_stage (frame_of rows))) =
                 match format_rows (frame_of rows) with
                 | [] => []
                 | fr => [Print_frame fr]
                 end).
    { rewrite special_stage_eq. now destruct (format_rows (frame_of rows)). }
    destruct (numeric_rows (frame_of rows)) as [|e0 nr] eqn:E.
    + rewrite (analyze_no_numeric parse _ E), Sp.
      rewrite special_stage_eq. cbn [outcome snd].
      now destruct (format_rows (frame_of rows)).
    + assert (Hne : numeric_rows (frame_of rows) <> [])
        by (rewrite E; discriminate).
      destruct (outcome (convert parse (numeric_rows (frame_of rows))))
        as [e|nf] eqn:C.
      * now rewrite (analyze_unconverted parse _ e C).
      * destruct (outcome (report_stage (sort_values nf))) as [e|[]] eqn:R.
        -- rewrite (analyze_raise_numeric parse _ nf e Hne C R).
           cbn [trace outcome fst snd]. apply report_stage_no_dump.
        -- rewrite (analyze_trace_numeric parse _ nf Hne C R).
           cbn [trace outcome fst snd].
           rewrite filter_app, report_stage_no_dump, Sp.
           now destruct (format_rows (frame_of rows)).
  - intro e. unfold format_rows. rewrite filter_In. unfold mask.
    now rewrite negb_true_iff.
  - unfold index, format_rows, frame_of. apply filter_labels_sorted.
Qed.

(** C8 as stated fails: with a numeric row whose gas cell does not convert,
    line 15 raises and the run stops, so the special row of the table is
    never printed. *)
Lemma dump_lost_when_conversion_fails :
  format_rows (frame_of bad_gas_rows) = [(1%nat, row "x" "5")] /\
  filter is_dump (trace (analyze parse_decimal (frame_of bad_gas_rows))) = [] /\
  analyze parse_decimal (frame_of bad_gas_rows) = ([], inl unparsable).
Proof. repeat split; vm_compute; reflexivity. Qed.

(** ** The small-message fit *)

Lemma insert_row_perm (e : nat * NumericRow) (l : NumericFrame) :
  Permutation (insert_row e l) (e :: l).
Proof.
  induction l as [|h t IH]; simpl.
  - apply Permutation_refl.
  - destruct (Qlt_le_dec (message_length (snd h)) (message_length (snd e))).
    + eapply perm_trans; [apply perm_skip, IH | apply perm_swap].
    + apply Permutation_refl.
Qed.

(** Sorting keeps the rows. *)
Lemma sort_values_perm (nf : NumericFrame) : Permutation (sort_values nf) nf.
Proof.
  induction nf as [|e nf IH]; simpl.
  - constructor.
  - eapply perm_trans; [apply insert_row_perm | now apply perm_skip].
Qed.

Lemma special_stage_calls (df : DataFrame) :
  calls (trace (special_stage df)) = [].
Proof. rewrite special_stage_eq. now destruct (format_rows df). Qed.

(** C6. Once the numeric rows are converted, the small-message selection
    holds exactly the numeric rows of length at most 200 (200 included).
    When it is not empty and the full fit has returned, the second call of
    [linregress] is on exactly its two columns. When it is empty there is
    no second call, nothing happens between the selection of the second
    panel and [tight_layout], nothing but the full-fit section (and the
    special-format output after it) is printed, and no error arises from
    the omission: the run ends normally unless the full fit itself
    raised. *)
Theorem small_fit_rows parse (df : DataFrame) (nf : NumericFrame) :
  numeric_rows df <> [] ->
  outcome (convert parse (numeric_rows df)) = inr nf ->
  (forall e, In e (small_rows (sort_values nf)) <->
             In e nf /\ message_length (snd e) <= 200) /\
  (forall r, fit (sort_values nf) = inr r ->
     small_rows (sort_values nf) <> [] ->
     calls (trace (analyze parse df)) =
     [ Call_linregress (col_length (sort_values nf)) (col_gas (sort_values nf));
       Call_linregress (col_length (small_rows (sort_values nf)))
                       (col_gas (small_rows (sort_values nf))) ]) /\
  (small_rows (sort_values nf) = [] ->
     calls (trace (analyze parse df)) =
     [ Call_linregress (col_length (sort_values nf))
                       (col_gas (sort_values nf)) ] /\
     second_panel (trace (analyze parse df)) = [] /\
     stdout (trace (analyze parse df)) =
       match fit (sort_values nf) with
       | inr r => Print "Gas Regression Analysis:" :: report r
                    ++ stdout (trace (special_stage df))
       | inl _ => []
       end /\
     outcome (analyze parse df) =
       match fit (sort_values nf) with
       | inr _ => inr tt
       | inl e => inl e
       end).
Proof.
  intros Hne Hc. split; [|split].
  - intro e. unfold small_rows. rewrite filter_In, Qle_bool_iff.
    split; intros [Hin Hle]; split; auto.
    + eapply Permutation_in; [apply sort_values_perm | exact Hin].
    + eapply Permutation_in; [apply Permutation_sym, sort_values_perm | exact Hin].
  - intros r Hf Hs.
    destruct (fit (small_rows (sort_values nf))) as [e|sr] eqn:Fs.
    + pose proof (report_stage_small_raise _ _ _ Hf Hs Fs) as R.
      rewrite (analyze_raise_numeric parse df nf e Hne Hc)
        by (now rewrite R).
      rewrite R. reflexivity.
    + pose proof (report_stage_small _ _ _ Hf Hs Fs) as R.
      rewrite (analyze_trace_numeric parse df nf Hne Hc)
        by (now rewrite R).
      cbn [trace fst]. unfold calls. rewrite filter_app.
      fold (calls (trace (special_stage df))).
      rewrite special_stage_calls, app_nil_r, R. reflexivity.
  - intro Hs. destruct (fit (sort_values nf)) as [e|r] eqn:Hf.
    + pose proof (report_stage_raise _ _ Hf) as R.
      rewrite (analyze_raise_numeric parse df nf e Hne Hc) by (now rewrite R).
      rewrite R. repeat split.
    + pose proof (report_stage_no_small _ _ Hf Hs) as R.
      rewrite (analyze_trace_numeric parse df nf Hne Hc) by (now rewrite R).
      cbn [trace outcome fst snd]. rewrite R. cbn [trace fst].
      split; [|split; [|split]].
      * unfold calls. rewrite filter_app.
        fold (calls (trace (special_stage df))).
        now rewrite special_stage_calls.
      * reflexivity.
      * unfold stdout. rewrite filter_app. reflexivity.
      * reflexivity.
Qed.

(** ** Sums, extrema and covariance *)

Lemma Qsum_perm (l l' : list Q) : Permutation l l' -> Qsum l == Qsum l'.
Proof.
  induction 1 as [|a l l' _ IH|a b l|l l' l'' _ IH1 _ IH2]; simpl.
  - reflexivity.
  - now rewrite IH.
  - ring.
  - now rewrite IH1.
Qed.

Lemma Qsum_map_ext {A} (f g : A -> Q) (l : list A) :
  (forall a, In a l -> f a == g a) -> Qsum (map f l) == Qsum (map g l).
Proof.
  induction l as [|a l IH]; intro H; simpl.
  - reflexivity.
  - rewrite (H a (or_introl eq_refl)), IH; [reflexivity|].
    intros b Hb. apply H. now right.
Qed.

Lemma Qlen_perm {A} (f : A -> Q) (l l' : list A) :
  Permutation l l' -> Qlen (map f l) = Qlen (map f l').
Proof.
  intro P. unfold Qlen. rewrite !length_map.
  now rewrite (Permutation_length P).
Qed.

Lemma mean_perm {A} (f : A -> Q) (l l' : list A) :
  Permutation l l' -> mean (map f l) == mean (map f l').
Proof.
  intro P. unfold mean. rewrite (Qlen_perm f l l' P).
  now rewrite (Qsum_perm _ _ (Permutation_map f P)).
Qed.

Lemma fold_Qmax_spec (l : list Q) (a : Q) :
  In (fold_left Qmax l a) (a :: l) /\
  forall b, In b (a :: l) -> b <= fold_left Qmax l a.
Proof.
  revert a. induction l as [|c l IH]; intro a; simpl.
  - split; [now left|]. intros b [<-|[]]. apply Qle_refl.
  - destruct (IH (Qmax a c)) as [Hin Hub]. split.
    + destruct Hin as [Hin|Hin]; [|now right; right].
      rewrite <- Hin. unfold Qmax.
      destruct (Qlt_le_dec a c); [right; now left | now left].
    + assert (Ha : a <= Qmax a c /\ c <= Qmax a c).
      { unfold Qmax. destruct (Qlt_le_dec a c); split;
          auto using Qle_refl, Qlt_le_weak. }
      intros b [<-|[<-|Hb]].
      * eapply Qle_trans; [apply Ha | apply Hub; now left].
      * eapply Qle_trans; [apply Ha | apply Hub; now left].
      * apply Hub. now right.
Qed.

Lemma fold_Qmin_spec (l : list Q) (a : Q) :
  In (fold_left Qmin l a) (a :: l) /\
  forall b, In b (a :: l) -> fold_left Qmin l a <= b.
Proof.
  revert a. induction l as [|c l IH]; intro a; simpl.
  - split; [now left|]. intros b [<-|[]]. apply Qle_refl.
  - destruct (IH (Qmin a c)) as [Hin Hlb]. split.
    + destruct Hin as [Hin|Hin]; [|now right; right].
      rewrite <- Hin. unfold Qmin.
      destruct (Qlt_le_dec c a); [right; now left | now left].
    + assert (Ha : Qmin a c <= a /\ Qmin a c <= c).
      { unfold Qmin. destruct (Qlt_le_dec c a); split;
          auto using Qle_refl, Qlt_le_weak. }
      intros b [<-|[<-|Hb]].
      * eapply Qle_trans; [apply Hlb; now left | apply Ha].
      * eapply Qle_trans; [apply Hlb; now left | apply Ha].
      * apply Hlb. now right.
Qed.

(** The maximum of a non-empty array is one of its entries and bounds
    them all; likewise the minimum. *)
Lemma amax_spec (l : list Q) :
  l <> [] -> In (amax l) l /\ forall b, In b l -> b <= amax l.
Proof. destruct l as [|a l]; [congruence|]. intros _. apply fold_Qmax_spec. Qed.

Lemma amin_spec (l : list Q) :
  l <> [] -> In (amin l) l /\ forall b, In b l -> amin l <= b.
Proof. destruct l as [|a l]; [congruence|]. intros _. apply fold_Qmin_spec. Qed.

Lemma perm_nonempty {A} (l l' : list A) :
  Permutation l l' -> l <> [] -> l' <> [].
Proof.
  intros P H E. subst l'. apply Permutation_sym, Permutation_nil in P.
  contradiction.
Qed.

Lemma amax_perm (l l' : list Q) :
  Permutation l l' -> amax l == amax l'.
Proof.
  intro P. destruct l as [|a l].
  - apply Permutation_nil in P. now subst l'.
  - assert (H : a :: l <> []) by discriminate.
    pose proof (perm_nonempty _ _ P H) as H'.
    destruct (amax_spec _ H) as [I U], (amax_spec _ H') as [I' U'].
    apply Qle_antisym.
    + apply U'. eapply Permutation_in; eauto.
    + apply U. eapply Permutation_in; [apply Permutation_sym|]; eauto.
Qed.

Lemma amin_perm (l l' : list Q) :
  Permutation l l' -> amin l == amin l'.
Proof.
  intro P. destruct l as [|a l].
  - apply Permutation_nil in P. now subst l'.
  - assert (H : a :: l <> []) by discriminate.
    pose proof (perm_nonempty _ _ P H) as H'.
    destruct (amin_spec _ H) as [I U], (amin_spec _ H') as [I' U'].
    apply Qle_antisym.
    + apply U. eapply Permutation_in; [apply Permutation_sym|]; eauto.
    + apply U'. eapply Permutation_in; eauto.
Qed.

Lemma Qeq_bool_compat (a a' b b' : Q) :
  a == a' -> b == b' -> Qeq_bool a b = Qeq_bool a' b'.
Proof.
  intros Ha Hb.
  destruct (Qeq_bool a b) eqn:E, (Qeq_bool a' b') eqn:E'; try reflexivity.
  - apply Qeq_bool_iff in E. apply Qeq_bool_neq in E'.
    exfalso. apply E'. now rewrite <- Ha, <- Hb.
  - apply Qeq_bool_iff in E'. apply Qeq_bool_neq in E.
    exfalso. apply E. now rewrite Ha, Hb.
Qed.

(** The product of deviations, row by row. *)
Lemma dot_deviations {A} (f g : A -> Q) (mx my : Q) (l : list A) :
  dot (map (fun a => a - mx) (map f l)) (map (fun a => a - my) (map g l)) =
  Qsum (map (fun e => (f e - mx) * (g e - my)) l).
Proof.
  unfold dot. induction l as [|e l IH]; simpl; [reflexivity|].
  now rewrite IH.
Qed.

Lemma cov_rows {A} (f g : A -> Q) (l : list A) :
  cov (map f l) (map g l) =
  Qsum (map (fun e => (f e - mean (map f l)) * (g e - mean (map g l))) l)
  / Qlen (map f l).
Proof. unfold cov, deviations. now rewrite dot_deviations. Qed.

(** The covariance does not depend on the order of the rows. *)
Lemma cov_perm {A} (f g : A -> Q) (l l' : list A) :
  Permutation l l' -> cov (map f l) (map g l) == cov (map f l') (map g l').
Proof.
  intro P. rewrite !cov_rows, (Qlen_perm f l l' P).
  apply Qmult_comp; [|reflexivity].
  rewrite (Qsum_perm _ _ (Permutation_map _ P)).
  apply Qsum_map_ext. intros e _.
  now rewrite (mean_perm f l l' P), (mean_perm g l l' P).
Qed.

(** ** Order invariance of the fit *)

Lemma fdiv_compat (a a' b b' : Q) :
  a == a' -> b == b' -> num_eq (fdiv a b) (fdiv a' b').
Proof.
  intros Ha Hb. unfold fdiv.
  rewrite (Qeq_bool_compat b b' 0 0 Hb (Qeq_refl 0)).
  destruct (Qeq_bool b' 0); simpl; [exact I|].
  now rewrite Ha, Hb.
Qed.

Lemma fmul_compat (a a' b b' : num) :
  num_eq a a' -> num_eq b b' -> num_eq (fmul a b) (fmul a' b').
Proof.
  destruct a, a', b, b'; simpl; try tauto.
  intros H1 H2. now rewrite H1, H2.
Qed.

Lemma fsub_compat (a a' b b' : num) :
  num_eq a a' -> num_eq b b' -> num_eq (fsub a b) (fsub a' b').
Proof.
  destruct a, a', b, b'; simpl; try tauto.
  intros H1 H2. now rewrite H1, H2.
Qed.

Lemma rvalue_squared_compat (a a' b b' c c' : Q) :
  a == a' -> b == b' -> c == c' ->
  num_eq (rvalue_squared a b c) (rvalue_squared a' b' c').
Proof.
  intros Ha Hb Hc. unfold rvalue_squared.
  rewrite (Qeq_bool_compat a a' 0 0 Ha (Qeq_refl 0)).
  rewrite (Qeq_bool_compat c c' 0 0 Hc (Qeq_refl 0)).
  destruct (Qeq_bool a' 0 || Qeq_bool c' 0); [exact I|].
  assert (E : b * b / (a * c) == b' * b' / (a' * c'))
    by (now rewrite Ha, Hb, Hc).
  cbv zeta. unfold num_eq.
  destruct (Qlt_le_dec 1 (b * b / (a * c))) as [L|L],
           (Qlt_le_dec 1 (b' * b' / (a' * c'))) as [L'|L'];
    try reflexivity; try exact E.
  - rewrite E in L. exfalso. apply (Qlt_irrefl 1).
    eapply Qlt_le_trans; eauto.
  - rewrite E in L. exfalso. apply (Qlt_irrefl 1).
    eapply Qlt_le_trans; eauto.
Qed.

Lemma col_length_perm (nf nf' : NumericFrame) :
  Permutation nf nf' -> Permutation (col_length nf) (col_length nf').
Proof. apply Permutation_map. Qed.

(** The fit of a permuted frame: the same exception, or the same numbers. *)
Lemma fit_perm (nf nf' : NumericFrame) :
  Permutation nf nf' -> result_eq (fit nf) (fit nf').
Proof.
  intro P. unfold fit, linregress, col_gas.
  fold (col_length nf) (col_length nf').
  unfold col_length. rewrite !length_map, (Permutation_length P).
  destruct ((List.length nf' =? 0)%nat || (List.length nf' =? 0)%nat);
    [reflexivity|].
  set (f := fun e : nat * NumericRow => message_length (snd e)).
  set (g := fun e : nat * NumericRow => gas_used (snd e)).
  rewrite (Qeq_bool_compat _ _ _ _
             (amax_perm _ _ (Permutation_map f P))
             (amin_perm _ _ (Permutation_map f P))).
  destruct (Qeq_bool (amax (map f nf')) (amin (map f nf'))
            && (1 <? List.length nf')%nat); [reflexivity|].
  unfold result_eq. cbn [slope intercept r_squared]. split; [|split].
  - apply fdiv_compat; apply cov_perm; exact P.
  - apply fsub_compat; [now apply mean_perm|].
    apply fmul_compat; [|now apply mean_perm].
    apply fdiv_compat; apply cov_perm; exact P.
  - apply rvalue_squared_compat; apply cov_perm; exact P.
Qed.

(** C5. The regression is order-invariant: for rows in any two orders
    (at least two rows), the fit raises the same exception or returns the
    same slope, intercept and r_squared. *)
Theorem fit_order_invariant (nf nf' : NumericFrame) :
  (2 <= List.length nf)%nat ->
  Permutation nf nf' ->
  result_eq (fit nf) (fit nf').
Proof. intros _ P. now apply fit_perm. Qed.

Lemma fit_order_invariant_witness :
  result_eq (fit example_numeric) (fit (rev example_numeric)).
Proof.
  apply fit_order_invariant; [simpl; lia | apply Permutation_rev].
Defined.

(** ** The range of r_squared *)

Lemma Qsquare_nonneg (a : Q) : 0 <= a * a.
Proof. destruct a as [n d]. unfold Qle. simpl. nia. Qed.

Lemma Qsum_squares_nonneg (d : list Q) : 0 <= dot d d.
Proof.
  unfold dot. induction d as [|a d IH]; cbn [combine map Qsum fold_right fst snd].
  - apply Qle_refl.
  - pose proof (Qsquare_nonneg a) as S.
    fold (Qsum (map (fun p => fst p * snd p) (combine d d))).
    apply (Qplus_le_compat 0 (a * a) 0 _ S IH).
Qed.

Lemma Qlen_nonneg (l : list Q) : 0 <= Qlen l.
Proof.
  unfold Qlen. change 0 with (inject_Z 0). rewrite <- Zle_Qle. lia.
Qed.

Lemma Qdiv_nonneg (a b : Q) : 0 <= a -> 0 <= b -> 0 <= a / b.
Proof.
  intros Ha Hb. unfold Qdiv. apply Qmult_le_0_compat; [exact Ha|].
  now apply Qinv_le_0_compat.
Qed.

(** A variance is never negative. *)
Lemma cov_self_nonneg (x : list Q) : 0 <= cov x x.
Proof.
  unfold cov. apply Qdiv_nonneg;
    [apply Qsum_squares_nonneg | apply Qlen_nonneg].
Qed.

Lemma rvalue_squared_range (ssxm ssxym ssym : Q) :
  0 <= ssxm -> 0 <= ssym ->
  rvalue_squared ssxm ssxym ssym = NaN \/
  exists q, rvalue_squared ssxm ssxym ssym = Fin q /\ 0 <= q <= 1.
Proof.
  intros Hx Hy. unfold rvalue_squared.
  destruct (Qeq_bool ssxm 0 || Qeq_bool ssym 0); [now left|].
  right. cbv zeta.
  destruct (Qlt_le_dec 1 (ssxym * ssxym / (ssxm * ssym))) as [L|L].
  - exists 1. split; [reflexivity | lra].
  - eexists. split; [reflexivity|]. split; [|exact L].
    apply Qdiv_nonneg.
    + apply Qsquare_nonneg.
    + now apply Qmult_le_0_compat.
Qed.

(** C7, as the code has it. Whenever [linregress] returns, the r_squared
    of its result is nan or lies in the closed interval from 0 to 1. *)
Theorem r_squared_nan_or_in_unit_interval (x y : list Q)
        (r : LinregressResult) :
  linregress x y = inr r ->
  r_squared r = NaN \/ exists q, r_squared r = Fin q /\ 0 <= q <= 1.
Proof.
  unfold linregress.
  destruct ((List.length x =? 0)%nat || (List.length y =? 0)%nat);
    [discriminate|].
  destruct (Qeq_bool (amax x) (amin x) && (1 <? List.length x)%nat);
    [discriminate|].
  intro H. injection H as <-. cbn [r_squared].
  apply rvalue_squared_range; apply cov_self_nonneg.
Qed.

Lemma r_squared_nan_or_in_unit_interval_witness :
  exists r, fit example_numeric = inr r /\
            (r_squared r = NaN \/
             exists q, r_squared r = Fin q /\ 0 <= q <= 1).
Proof.
  destruct (fit example_numeric) as [e|r] eqn:F.
  - exfalso. vm_compute in F. discriminate.
  - exists r. split; [reflexivity|].
    exact (r_squared_nan_or_in_unit_interval
             (col_length example_numeric) (col_gas example_numeric) r F).
Defined.

(** C7 as stated fails: the regression is computed and its r_squared is
    nan, not a number of the interval, when the gas values are all equal
    and when there is a single row; the report then prints it as nan. *)
Lemma r_squared_can_be_nan :
  (exists r, fit flat_numeric = inr r /\ r_squared r = NaN) /\
  In (Print "R-squared: nan")
     (trace (analyze parse_decimal (frame_of flat_rows))) /\
  (exists r, fit single_numeric = inr r /\ r_squared r = NaN) /\
  In (Print "R-squared: nan")
     (trace (analyze parse_decimal (frame_of single_rows))).
Proof.
  split; [eexists; split; vm_compute; reflexivity|].
  split.
  { assert (S : In (Print "R-squared: nan")
                   (stdout (trace (analyze parse_decimal (frame_of flat_rows)))))
      by (vm_compute; auto 10).
    unfold stdout in S. now apply filter_In in S. }
  split; [eexists; split; vm_compute; reflexivity|].
  assert (S : In (Print "R-squared: nan")
                 (stdout (trace (analyze parse_decimal (frame_of single_rows)))))
    by (vm_compute; auto 10).
  unfold stdout in S. now apply filter_In in S.
Qed.

(** ** Division by a zero variance *)

Lemma dot_self_zero (d : list Q) :
  dot d d == 0 -> Forall (fun a => a == 0) d.
Proof.
  unfold dot. induction d as [|a d IH];
    cbn [combine map Qsum fold_right fst snd]; intro H.
  - constructor.
  - fold (Qsum (map (fun p => fst p * snd p) (combine d d))) in *.
    pose proof (Qsquare_nonneg a) as Sa.
    pose proof (Qsum_squares_nonneg d) as Sd. unfold dot in Sd.
    assert (Za : a * a == 0) by lra.
    assert (Zd : Qsum (map (fun p => fst p * snd p) (combine d d)) == 0) by lra.
    constructor; [|now apply IH].
    destruct (Qmult_integral _ _ Za); assumption.
Qed.

Lemma dot_zero_l (d d' : list Q) :
  Forall (fun a => a == 0) d -> dot d d' == 0.
Proof.
  unfold dot. intro H. revert d'.
  induction H as [|a d Ha _ IH]; intros [|b d'];
    cbn [combine map Qsum fold_right fst snd]; try reflexivity.
  fold (Qsum (map (fun p => fst p * snd p) (combine d d'))).
  rewrite IH, Ha. ring.
Qed.

(** When the variance of x is zero so is the covariance: the only division
    by zero in [linregress] is [0.0 / 0.0]. *)
Lemma ssxm_zero_ssxym_zero (x y : list Q) :
  cov x x == 0 -> cov x y == 0.
Proof.
  unfold cov. intro H.
  destruct (Qeq_dec (Qlen x) 0) as [Z|NZ].
  - rewrite Z. unfold Qdiv. ring_simplify.
    setoid_replace (/ 0) with 0 by reflexivity. ring.
  - assert (D : dot (deviations x) (deviations x) == 0).
    { setoid_replace (dot (deviations x) (deviations x))
        with (dot (deviations x) (deviations x) / Qlen x * Qlen x)
        by (field; exact NZ).
      rewrite H. ring. }
    rewrite (dot_zero_l _ (deviations y) (dot_self_zero _ D)).
    field. exact NZ.
Qed.

Lemma dot_comm (d d' : list Q) : dot d d' == dot d' d.
Proof.
  unfold dot. revert d'.
  induction d as [|a d IH]; intros [|b d'];
    cbn [combine map Qsum fold_right fst snd]; try reflexivity.
  fold (Qsum (map (fun p => fst p * snd p) (combine d d'))).
  fold (Qsum (map (fun p => fst p * snd p) (combine d' d))).
  rewrite (IH d'). ring.
Qed.

(** Likewise when the variance of y is zero: [r] is then [0.0 / 0.0]. *)
Lemma ssym_zero_ssxym_zero (x y : list Q) :
  List.length x = List.length y -> cov y y == 0 -> cov x y == 0.
Proof.
  intros L H. pose proof (ssxm_zero_ssxym_zero y x H) as S.
  unfold cov in *. unfold Qlen in *. rewrite L.
  now rewrite dot_comm.
Qed.

(** ** Rows of one length *)

Lemma same_length_extrema (nf : NumericFrame) :
  nf <> [] -> same_length nf ->
  Qeq_bool (amax (col_length nf)) (amin (col_length nf)) = true.
Proof.
  intros Hne Hs. apply Qeq_bool_iff.
  assert (Hx : col_length nf <> []).
  { destruct nf; [congruence | discriminate]. }
  destruct (amax_spec _ Hx) as [Imax _], (amin_spec _ Hx) as [Imin _].
  unfold col_length in Imax, Imin.
  apply in_map_iff in Imax, Imin.
  destruct Imax as [e [Ee Ie]], Imin as [e' [Ee' Ie']].
  unfold col_length. rewrite <- Ee, <- Ee'. now apply Hs.
Qed.

(** Two or more rows of one length: [linregress] raises. *)
Lemma fit_same_length_raises (nf : NumericFrame) :
  (2 <= List.length nf)%nat -> same_length nf -> fit nf = inl identical_x.
Proof.
  intros Hn Hs. unfold fit, linregress.
  assert (Hne : nf <> []) by (destruct nf; [simpl in Hn; lia | discriminate]).
  rewrite (same_length_extrema nf Hne Hs).
  assert (Lx : List.length (col_length nf) = List.length nf)
    by apply length_map.
  assert (Ly : List.length (col_gas nf) = List.length nf)
    by apply length_map.
  rewrite !Lx, !Ly.
  destruct (List.length nf) as [|[|n]] eqn:L; try lia.
  reflexivity.
Qed.

Lemma cov_single_zero (a b : Q) : cov [a] [b] == 0.
Proof.
  unfold cov, deviations, dot, mean, Qlen. simpl. field.
Qed.

(** One row: [linregress] returns, with nan coefficients. *)
Lemma fit_single_row (e : nat * NumericRow) : fit [e] = inr nan_result.
Proof.
  unfold fit, linregress. cbn [col_length col_gas map List.length].
  cbn [Nat.eqb orb Nat.ltb Nat.leb]. rewrite andb_false_r.
  unfold fdiv, rvalue_squared.
  assert (Z : Qeq_bool
                (cov [message_length (snd e)] [message_length (snd e)]) 0 = true)
    by (apply Qeq_bool_iff, cov_single_zero).
  rewrite Z. reflexivity.
Qed.

Lemma same_length_perm (nf nf' : NumericFrame) :
  Permutation nf nf' -> same_length nf -> same_length nf'.
Proof.
  intros P H e e' He He'.
  apply H; eapply Permutation_in; try apply Permutation_sym; eauto.
Qed.

Lemma report_stage_single (e : nat * NumericRow) :
  outcome (report_stage [e]) = inr tt.
Proof.
  pose proof (fit_single_row e) as F.
  destruct (small_rows [e]) as [|s0 sm] eqn:S.
  - now rewrite (report_stage_no_small [e] nan_result F S).
  - assert (Hne : small_rows [e] <> []) by (rewrite S; discriminate).
    assert (Fs : fit (small_rows [e]) = inr nan_result).
    { unfold small_rows in *. simpl in *.
      destruct (Qle_bool (message_length (snd e)) 200); [|discriminate].
      exact F. }
    now rewrite (report_stage_small [e] nan_result nan_result F Hne Fs).
Qed.

(** C10, as the code has it. Two or more numeric rows that share one
    message length make [linregress] raise, and the run stops there: at the
    full fit when all rows share the length, at the small-message fit when
    the full fit has returned and the small rows share it. For a single row
    nothing is raised: the fit returns a result and the run ends
    normally. *)
Theorem identical_lengths_abort parse (df : DataFrame) (nf : NumericFrame) :
  numeric_rows df <> [] ->
  outcome (convert parse (numeric_rows df)) = inr nf ->
  ((2 <= List.length nf)%nat -> same_length nf ->
     analyze parse df =
     ([ Call_linregress (col_length (sort_values nf))
                        (col_gas (sort_values nf)) ],
      inl identical_x)) /\
  (forall r, fit (sort_values nf) = inr r ->
     (2 <= List.length (small_rows (sort_values nf)))%nat ->
     same_length (small_rows (sort_values nf)) ->
     analyze parse df =
     (Call_linregress (col_length (sort_values nf)) (col_gas (sort_values nf))
        :: panel1 (sort_values nf) r
        ++ [ Call_linregress (col_length (small_rows (sort_values nf)))
                             (col_gas (small_rows (sort_values nf))) ],
      inl identical_x)) /\
  (forall e, nf = [e] ->
     (exists r, fit (sort_values nf) = inr r) /\
     outcome (analyze parse df) = inr tt).
Proof.
  intros Hne Hc. split; [|split].
  - intros Hn Hs.
    pose proof (sort_values_perm nf) as P.
    assert (F : fit (sort_values nf) = inl identical_x).
    { apply fit_same_length_raises.
      - now rewrite (Permutation_length P).
      - eapply same_length_perm; [apply Permutation_sym, P | exact Hs]. }
    pose proof (report_stage_raise _ _ F) as R.
    rewrite (analyze_raise_numeric parse df nf identical_x Hne Hc)
      by (now rewrite R).
    now rewrite R.
  - intros r F Hn Hs.
    pose proof (fit_same_length_raises _ Hn Hs) as Fs.
    assert (Hsm : small_rows (sort_values nf) <> []).
    { destruct (small_rows (sort_values nf)); [simpl in Hn; lia | discriminate]. }
    pose proof (report_stage_small_raise _ _ _ F Hsm Fs) as R.
    rewrite (analyze_raise_numeric parse df nf identical_x Hne Hc)
      by (now rewrite R).
    now rewrite R.
  - intros e ->. split.
    + exists nan_result. apply fit_single_row.
    + rewrite (analyze_trace_numeric parse df [e] Hne Hc);
        [reflexivity | apply report_stage_single].
Qed.

Lemma twin_same_length : same_length twin_numeric.
Proof.
  intros e e' He He'. simpl in He, He'.
  destruct He as [<-|[<-|[]]], He' as [<-|[<-|[]]]; reflexivity.
Qed.

Lemma identical_lengths_abort_witness :
  analyze parse_decimal (frame_of twin_rows) =
  ([Call_linregress [10; 10] [1200; 1300]], inl identical_x).
Proof.
  assert (Hne : numeric_rows (frame_of twin_rows) <> [])
    by (vm_compute; discriminate).
  assert (Hc : outcome (convert parse_decimal (numeric_rows (frame_of twin_rows)))
               = inr twin_numeric) by (vm_compute; reflexivity).
  assert (Hn : (2 <= List.length twin_numeric)%nat) by (simpl; lia).
  exact (proj1 (identical_lengths_abort parse_decimal (frame_of twin_rows)
                  twin_numeric Hne Hc) Hn twin_same_length).
Defined.

(** C10 as stated fails in the single-row case: one numeric row raises
    nothing. [linregress] returns a result and the run completes, with the
    image saved. *)
Lemma single_row_fit_returns :
  outcome (convert parse_decimal (numeric_rows (frame_of single_rows)))
    = inr single_numeric /\
  same_length single_numeric /\
  (exists r, fit single_numeric = inr r) /\
  filter is_savefig (trace (analyze parse_decimal (frame_of single_rows)))
    = [Plt_savefig out_file] /\
  outcome (analyze parse_decimal (frame_of single_rows)) = inr tt.
Proof.
  split; [vm_compute; reflexivity|].
  split.
  { intros e e' He He'. simpl in He, He'.
    destruct He as [<-|[]], He' as [<-|[]]. reflexivity. }
  split; [exists nan_result; apply fit_single_row|].
  split; vm_compute; reflexivity.
Qed.

Lemma small_fit_rows_witness :
  calls (trace (analyze parse_decimal (frame_of bound_rows))) =
  [ Call_linregress [100; 200; 201] [5700; 10700; 10750];
    Call_linregress [100; 200] [5700; 10700] ].
Proof.
  assert (Hne : numeric_rows (frame_of bound_rows) <> [])
    by (vm_compute; discriminate).
  assert (Hs : sort_values
                 [ (0%nat, {| message_length := 200; gas_used := 10700 |});
                   (1%nat, {| message_length := 100; gas_used := 5700 |});
                   (2%nat, {| message_length := 201; gas_used := 10750 |}) ]
               = bound_numeric) by (vm_compute; reflexivity).
  assert (Hc : outcome (convert parse_decimal (numeric_rows (frame_of bound_rows)))
               = inr [ (0%nat, {| message_length := 200; gas_used := 10700 |});
                       (1%nat, {| message_length := 100; gas_used := 5700 |});
                       (2%nat, {| message_length := 201; gas_used := 10750 |}) ])
    by (vm_compute; reflexivity).
  destruct (fit bound_numeric) as [e|r] eqn:F;
    [exfalso; vm_compute in F; discriminate|].
  rewrite <- Hs in F.
  destruct (small_fit_rows parse_decimal (frame_of bound_rows) _ Hne Hc)
    as [_ [Call _]].
  rewrite (Call r F); [vm_compute; reflexivity | vm_compute; discriminate].
Defined.

(** ** The end-to-end example *)

(** On three points of the line [gas = 700 + 50 * length] the fit is exact. *)
Example collinear_fit :
  exists r, fit collinear_numeric = inr r /\
            num_eq (slope r) (Fin 50) /\
            num_eq (intercept r) (Fin 700) /\
            num_eq (r_squared r) (Fin 1).
Proof.
  eexists. split; [reflexivity|]. repeat split; vm_compute; reflexivity.
Qed.

(** C4, as the code has it. The table of the example splits into 3 numeric
    rows and 1 special row. Its three points (10, 1200), (50, 3700),
    (100, 6200) are not collinear: the full fit returns slope 3375/61,
    intercept 45700/61 and r_squared 243/244, the report prints them as
    55.33, 749.18 and 0.9959 (for the full fit and again for the small
    messages, all three lengths being at most 200), and the special-format
    section lists the abc-test row. *)
Theorem example_run :
  List.length (numeric_rows (frame_of example_rows)) = 3%nat /\
  List.length (format_rows (frame_of example_rows)) = 1%nat /\
  outcome (convert parse_decimal (numeric_rows (frame_of example_rows)))
    = inr example_numeric /\
  (exists r, fit (sort_values example_numeric) = inr r /\
             num_eq (slope r) (Fin (3375 # 61)) /\
             num_eq (intercept r) (Fin (45700 # 61)) /\
             num_eq (r_squared r) (Fin (243 # 244))) /\
  stdout (trace (analyze parse_decimal (frame_of example_rows))) =
    [ Print "Gas Regression Analysis:";
      Print "Base gas cost: 749.18 gas units";
      Print "Marginal cost per byte: 55.33 gas units";
      Print "R-squared: 0.9959";
      Print small_header;
      Print "Base gas cost: 749.18 gas units";
      Print "Marginal cost per byte: 55.33 gas units";
      Print "R-squared: 0.9959";
      Print special_header;
      Print_frame [(3%nat, row "abc-test" "1500")] ].
Proof.
  split; [reflexivity|]. split; [reflexivity|].
  split; [vm_compute; reflexivity|].
  split; [|vm_compute; reflexivity].
  eexists. split; [reflexivity|]. repeat split; vm_compute; reflexivity.
Qed.

(** C4 as stated fails: on the table of the example the fit does not return
    slope 50 and intercept 700, and the report does not print an r_squared
    of 1.0000. *)
Lemma example_fit_is_not_50_700 :
  (forall r, fit (sort_values example_numeric) = inr r ->
             ~ num_eq (slope r) (Fin 50) /\
             ~ num_eq (intercept r) (Fin 700) /\
             ~ num_eq (r_squared r) (Fin 1)) /\
  ~ In (Print "R-squared: 1.0000")
       (trace (analyze parse_decimal (frame_of example_rows))).
Proof.
  split.
  - intros r F. vm_compute in F. injection F as <-.
    repeat split; intro H; vm_compute in H; discriminate.
  - intro H.
    assert (S : In (Print "R-squared: 1.0000")
                   (stdout (trace (analyze parse_decimal (frame_of example_rows))))).
    { unfold stdout. apply filter_In. split; [exact H | reflexivity]. }
    vm_compute in S.
    repeat (destruct S as [S|S]; [discriminate|]). exact S.
Qed.

(** ** Further runs *)

(** Lengths above 200 only: one call, an empty second panel, no
    small-message section in the report. *)
Example large_rows_run :
  calls (trace (analyze parse_decimal (frame_of large_rows))) =
    [Call_linregress [300; 500] [16000; 26000]] /\
  second_panel (trace (analyze parse_decimal (frame_of large_rows))) = [] /\
  stdout (trace (analyze parse_decimal (frame_of large_rows))) =
    [ Print "Gas Regression Analysis:";
      Print "Base gas cost: 1000.00 gas units";
      Print "Marginal cost per byte: 50.00 gas units";
      Print "R-squared: 1.0000" ] /\
  outcome (analyze parse_decimal (frame_of large_rows)) = inr tt.
Proof. repeat split; vm_compute; reflexivity. Qed.

(** Two small rows of one length: the full fit returns, the small-message
    fit raises, and nothing is saved or printed. *)
Example small_twin_rows_run :
  calls (trace (analyze parse_decimal (frame_of small_twin_rows))) =
    [ Call_linregress [10; 10; 300] [1200; 1300; 16000];
      Call_linregress [10; 10] [1200; 1300] ] /\
  filter is_savefig (trace (analyze parse_decimal (frame_of small_twin_rows)))
    = [] /\
  stdout (trace (analyze parse_decimal (frame_of small_twin_rows))) = [] /\
  outcome (analyze parse_decimal (frame_of small_twin_rows)) = inl identical_x.
Proof. repeat split; vm_compute; reflexivity. Qed.

(** ** Signs, points and blanks in a length *)

(** X1. A length that contains an ASCII character other than a digit (a
    sign, a decimal point, an exponent letter, a blank) fails
    [str.isnumeric]: its row is among the special rows and not among the
    numeric ones. *)
Theorem ascii_nondigit_is_special (df : DataFrame) (e : nat * Row) (c : N) :
  In e df ->
  In c (message_length_raw (snd e)) ->
  (c < 128)%N ->
  ascii_digit c = false ->
  In e (format_rows df) /\ ~ In e (numeric_rows df).
Proof.
  intros He Hc Hlt Hd.
  assert (F : isnumeric (message_length_raw (snd e)) = false).
  { destruct (message_length_raw (snd e)) as [|c0 s] eqn:E; [reflexivity|].
    unfold isnumeric.
    destruct (forallb numeric_char (c0 :: s)) eqn:A; [|reflexivity].
    rewrite forallb_forall in A. specialize (A c Hc).
    rewrite (numeric_char_ascii c Hlt) in A. congruence. }
  split.
  - unfold format_rows. apply filter_In. split; [exact He|].
    unfold mask. now rewrite F.
  - unfold numeric_rows. rewrite filter_In. unfold mask. rewrite F.
    intros [_ H]. discriminate.
Qed.

Lemma ascii_nondigit_is_special_witness :
  In (0%nat, row "-5" "900") (format_rows (frame_of [row "-5" "900"])) /\
  ~ In (0%nat, row "-5" "900") (numeric_rows (frame_of [row "-5" "900"])).
Proof.
  apply (ascii_nondigit_is_special (frame_of [row "-5" "900"])
           (0%nat, row "-5" "900") 45%N).
  - simpl. now left.
  - simpl. now left.
  - reflexivity.
  - reflexivity.
Defined.

(** ** Converting the numeric rows *)

Lemma to_numeric_inl parse (col : list ustr) (e : exn) :
  to_numeric parse col = inl e ->
  e = unparsable /\ exists s, In s col /\ parse s = None.
Proof.
  induction col as [|s col IH]; simpl; [discriminate|].
  destruct (parse s) as [q|] eqn:P.
  - destruct (to_numeric parse col) as [e'|l]; [|discriminate].
    intro H. injection H as <-.
    destruct (IH eq_refl) as [E [s' [Hin Hs']]].
    split; [exact E|]. exists s'. split; [now right | exact Hs'].
  - intro H. injection H as <-. split; [reflexivity|].
    exists s. split; [now left | exact P].
Qed.

Lemma convert_inl parse (nr : DataFrame) (e : exn) :
  outcome (convert parse nr) = inl e ->
  e = unparsable /\ Exists (unconvertible parse) nr.
Proof.
  intros H. unfold convert, lift in H.
  destruct (to_numeric parse (map (fun e => message_length_raw (snd e)) nr))
    as [e1|xs] eqn:X.
  - simpl in H. injection H as <-.
    destruct (to_numeric_inl parse _ e1 X) as [E [s [Hin Hs]]].
    split; [exact E|]. apply in_map_iff in Hin.
    destruct Hin as [r [<- Hr]].
    apply Exists_exists. exists r. split; [exact Hr | now left].
  - rewrite bind_value in H.
    destruct (to_numeric parse (map (fun e => gas_used_raw (snd e)) nr))
      as [e2|ys] eqn:Y.
    + simpl in H. injection H as <-.
      destruct (to_numeric_inl parse _ e2 Y) as [E [s [Hin Hs]]].
      split; [exact E|]. apply in_map_iff in Hin.
      destruct Hin as [r [<- Hr]].
      apply Exists_exists. exists r. split; [exact Hr | now right].
    + rewrite bind_value in H. simpl in H. discriminate.
Qed.

Lemma assemble_converted parse (nr : DataFrame) :
  forall xs ys,
  to_numeric parse (map (fun e => message_length_raw (snd e)) nr) = inr xs ->
  to_numeric parse (map (fun e => gas_used_raw (snd e)) nr) = inr ys ->
  Forall2 (converted parse) nr (assemble (index nr) xs ys).
Proof.
  induction nr as [|e nr IH]; simpl; intros xs ys X Y.
  - injection X as <-. constructor.
  - destruct (parse (message_length_raw (snd e))) as [x|] eqn:Px;
      [|discriminate].
    destruct (to_numeric parse (map (fun e => message_length_raw (snd e)) nr))
      as [e1|xs'] eqn:X'; [discriminate|].
    destruct (parse (gas_used_raw (snd e))) as [y|] eqn:Py; [|discriminate].
    destruct (to_numeric parse (map (fun e => gas_used_raw (snd e)) nr))
      as [e2|ys'] eqn:Y'; [discriminate|].
    injection X as <-. injection Y as <-.
    unfold assemble. simpl. constructor.
    + unfold converted. simpl. now rewrite Px, Py.
    + apply (IH xs' ys' eq_refl eq_refl).
Qed.

Lemma convert_forall2 parse (nr : DataFrame) (nf : NumericFrame) :
  outcome (convert parse nr) = inr nf -> Forall2 (converted parse) nr nf.
Proof.
  intro H. unfold convert, lift in H.
  destruct (to_numeric parse (map (fun e => message_length_raw (snd e)) nr))
    as [e1|xs] eqn:X; [simpl in H; discriminate|].
  rewrite bind_value in H.
  destruct (to_numeric parse (map (fun e => gas_used_raw (snd e)) nr))
    as [e2|ys] eqn:Y; [simpl in H; discriminate|].
  rewrite bind_value in H. simpl in H.
  injection H as <-. now apply assemble_converted.
Qed.

(** X3. A conversion that succeeds keeps the rows: the numeric frame has one
    row for each selected row, in the same order and under the same index
    label, holding the two converted cells. *)
Theorem convert_keeps_rows parse (nr : DataFrame) (nf : NumericFrame) :
  outcome (convert parse nr) = inr nf ->
  Forall2 (converted parse) nr nf /\ map fst nf = index nr.
Proof.
  intro H.
  pose proof (convert_forall2 parse nr nf H) as F.
  split; [exact F|].
  clear H. unfold index. induction F as [|e n nr nf [L _] _ IH]; simpl; [reflexivity|].
  now rewrite L, IH.
Qed.

Lemma convert_keeps_rows_witness :
  map fst example_numeric = index (numeric_rows (frame_of example_rows)).
Proof.
  assert (H : outcome (convert parse_decimal (numeric_rows (frame_of example_rows)))
              = inr example_numeric) by (vm_compute; reflexivity).
  exact (proj2 (convert_keeps_rows parse_decimal
                  (numeric_rows (frame_of example_rows)) example_numeric H)).
Defined.

(** ** Sorting *)

Lemma insert_row_in (e a : nat * NumericRow) (l : NumericFrame) :
  In a (insert_row e l) -> a = e \/ In a l.
Proof.
  intro H. apply (Permutation_in _ (insert_row_perm e l)) in H.
  destruct H as [<-|H]; auto.
Qed.

Lemma insert_row_sorted (e : nat * NumericRow) (l : NumericFrame) :
  StronglySorted by_length l -> StronglySorted by_length (insert_row e l).
Proof.
  induction 1 as [|h t St IH Hh]; simpl.
  - repeat constructor.
  - destruct (Qlt_le_dec (message_length (snd h)) (message_length (snd e)))
      as [L|L].
    + constructor; [exact IH|].
      apply Forall_forall. intros a Ha.
      destruct (insert_row_in e a t Ha) as [->|Hin].
      * now apply Qlt_le_weak.
      * rewrite Forall_forall in Hh. now apply Hh.
    + constructor; [now constructor|].
      constructor; [exact L|].
      apply Forall_forall. intros a Ha. rewrite Forall_forall in Hh.
      eapply Qle_trans; [exact L | now apply Hh].
Qed.

(** X4. [sort_values] returns the same rows in ascending order of message
    length. *)
Theorem sort_values_sorted (nf : NumericFrame) :
  StronglySorted by_length (sort_values nf) /\
  Permutation (sort_values nf) nf.
Proof.
  split; [|apply sort_values_perm].
  induction nf as [|e nf IH]; simpl.
  - constructor.
  - now apply insert_row_sorted.
Qed.

(** X5. Sorting the rows (line 18) does not change the regression: the fit
    of the sorted rows raises the same exception as, or returns the same
    slope, intercept and r_squared as, the fit of the rows as converted. *)
Theorem sorting_keeps_fit (nf : NumericFrame) :
  result_eq (fit (sort_values nf)) (fit nf).
Proof. apply fit_perm, sort_values_perm. Qed.

(** ** What a run leaves behind *)


(** A report stage that completes: what it saved and printed. *)
Lemma report_stage_done (nf : NumericFrame) :
  outcome (report_stage nf) = inr tt ->
  exists r, fit nf = inr r /\
    filter is_savefig (trace (report_stage nf)) = [Plt_savefig out_file] /\
    stdout (trace (report_stage nf)) =
      Print "Gas Regression Analysis:" :: report r
        ++ small_section (small_rows nf).
Proof.
  destruct (fit nf) as [e1|r] eqn:F.
  - rewrite (report_stage_raise nf _ F). discriminate.
  - intros H. exists r. split; [reflexivity|].
    destruct (small_rows nf) as [|s0 sm] eqn:S.
    + rewrite (report_stage_no_small nf _ F S). split; reflexivity.
    + assert (Hne : small_rows nf <> []) by (rewrite S; discriminate).
      destruct (fit (small_rows nf)) as [e2|sr] eqn:Fs.
      * rewrite (report_stage_small_raise nf _ _ F Hne Fs) in H. discriminate.
      * rewrite (report_stage_small nf _ _ F Hne Fs).
        unfold small_section. rewrite <- S, Fs, S. split; reflexivity.
Qed.

Lemma special_stage_savefig (df : DataFrame) :
  filter is_savefig (trace (special_stage df)) = [].
Proof. rewrite special_stage_eq. now destruct (format_rows df). Qed.



(** X10. A run with numeric rows that completes saved the image exactly
    once, to gas_analysis.png, and printed, in this order: the full-fit
    section, the small-message section when there are rows of length at
    most 200, and the special-format output. *)
Theorem completed_run_output parse (df : DataFrame) :
  numeric_rows df <> [] ->
  outcome (analyze parse df) = inr tt ->
  exists nf r,
    outcome (convert parse (numeric_rows df)) = inr nf /\
    fit (sort_values nf) = inr r /\
    filter is_savefig (trace (analyze parse df)) = [Plt_savefig out_file] /\
    stdout (trace (analyze parse df)) =
      Print "Gas Regression Analysis:" :: report r
        ++ small_section (small_rows (sort_values nf))
        ++ stdout (trace (special_stage df)).
Proof.
  intros Hne H.
  destruct (outcome (convert parse (numeric_rows df))) as [e1|nf] eqn:C.
  - rewrite (analyze_unconverted parse df e1 C) in H. discriminate.
  - destruct (outcome (report_stage (sort_values nf))) as [e2|[]] eqn:R.
    + rewrite (analyze_raise_numeric parse df nf e2 Hne C R) in H.
      discriminate.
    + destruct (report_stage_done _ R) as [r [F [S P]]].
      exists nf, r. split; [reflexivity|]. split; [exact F|].
      rewrite (analyze_trace_numeric parse df nf Hne C R).
      cbn [trace fst]. unfold stdout in *. rewrite !filter_app.
      rewrite S, P, special_stage_savefig, app_nil_r.
      split; [reflexivity|].
      cbn [app]. now rewrite <- app_assoc.
Qed.

Lemma completed_run_output_witness :
  filter is_savefig (trace (analyze parse_decimal (frame_of large_rows)))
    = [Plt_savefig out_file].
Proof.
  assert (Hne : numeric_rows (frame_of large_rows) <> [])
    by (vm_compute; discriminate).
  assert (H : outcome (analyze parse_decimal (frame_of large_rows)) = inr tt)
    by (vm_compute; reflexivity).
  destruct (completed_run_output parse_decimal (frame_of large_rows) Hne H)
    as [nf [r [_ [_ [S _]]]]].
  exact S.
Defined.

(** ** The prediction grid *)

Lemma inject_nat_nonzero (k : nat) :
  (1 <= k)%nat -> ~ inject_Z (Z.of_nat k) == 0.
Proof. intros H E. unfold Qeq in E. simpl in E. lia. Qed.

(** X11. [linspace0 stop n], the grid of a fitted line (100 points up to
    1.1 times the largest length in the first panel, up to 200 in the
    second), has [n] points, starts at 0, ends at [stop] itself, and for a
    non-negative [stop] never leaves the range from 0 to [stop]. *)
Theorem linspace0_spans (stop : Q) (n : nat) :
  (2 <= n)%nat ->
  List.length (linspace0 stop n) = n /\
  nth 0 (linspace0 stop n) 0 == 0 /\
  last (linspace0 stop n) 0 == stop /\
  (0 <= stop -> Forall (fun t => 0 <= t <= stop) (linspace0 stop n)).
Proof.
  intro Hn. unfold linspace0.
  assert (Hd : ~ inject_Z (Z.of_nat (n - 1)) == 0)
    by (apply inject_nat_nonzero; lia).
  split; [|split; [|split]].
  - now rewrite length_map, length_seq.
  - destruct n as [|m]; [lia|]. simpl nth.
    change (inject_Z (Z.of_nat 0)) with 0. ring.
  - remember (n - 1)%nat as k eqn:Ek.
    assert (En : n = S k) by lia. rewrite En.
    rewrite seq_S, map_app. cbn [map]. rewrite last_last. simpl Nat.add.
    field. exact Hd.
  - intro Hs. apply Forall_forall. intros t Ht.
    apply in_map_iff in Ht. destruct Ht as [i [<- Hi]].
    apply in_seq in Hi.
    assert (P : 0 < inject_Z (Z.of_nat (n - 1))).
    { change 0 with (inject_Z 0). rewrite <- Zlt_Qlt. lia. }
    assert (Hstep : 0 <= stop / inject_Z (Z.of_nat (n - 1))).
    { apply Qle_shift_div_l; [exact P|]. now rewrite Qmult_0_l. }
    assert (Hi0 : 0 <= inject_Z (Z.of_nat i)).
    { change 0 with (inject_Z 0). rewrite <- Zle_Qle. lia. }
    assert (Hi1 : inject_Z (Z.of_nat i) <= inject_Z (Z.of_nat (n - 1))).
    { rewrite <- Zle_Qle. lia. }
    split.
    + now apply Qmult_le_0_compat.
    + setoid_replace stop
        with (inject_Z (Z.of_nat (n - 1))
              * (stop / inject_Z (Z.of_nat (n - 1)))) at 2
        by (field; exact Hd).
      now apply Qmult_le_compat_r.
Qed.

Lemma linspace0_spans_witness :
  List.length (linspace0 200 100) = 100%nat /\
  last (linspace0 200 100) 0 == 200.
Proof.
  assert (H : (2 <= 100)%nat) by lia.
  destruct (linspace0_spans 200 100 H) as [L [_ [E _]]].
  exact (conj L E).
Defined.

(** ** Digit strings *)

(** X12. A row whose length is a non-empty string of ASCII digits is
    selected as numeric, and is not among the special rows. *)
Theorem digit_length_is_numeric (df : DataFrame) (e : nat * Row) :
  In e df ->
  message_length_raw (snd e) <> [] ->
  all_ascii_digits (message_length_raw (snd e)) = true ->
  In e (numeric_rows df) /\ ~ In e (format_rows df).
Proof.
  intros He Hne Hd.
  pose proof (isnumeric_ascii_digits _ Hne Hd) as N.
  split.
  - unfold numeric_rows. apply filter_In. split; [exact He | exact N].
  - unfold format_rows. rewrite filter_In. unfold mask. rewrite N.
    intros [_ H]. discriminate.
Qed.

Lemma digit_length_is_numeric_witness :
  In (0%nat, row "10" "1200") (numeric_rows (frame_of example_rows)).
Proof.
  apply (digit_length_is_numeric (frame_of example_rows)
           (0%nat, row "10" "1200")).
  - simpl. now left.
  - discriminate.
  - reflexivity.
Defined.

(** ** The order of the table *)

Lemma filter_perm {A} (p : A -> bool) (l l' : list A) :
  Permutation l l' -> Permutation (filter p l) (filter p l').
Proof.
  induction 1 as [|a l l' _ IH|a b l|l l' l'' _ IH1 _ IH2]; simpl.
  - constructor.
  - destruct (p a); [now constructor | exact IH].
  - destruct (p a), (p b); try apply Permutation_refl. apply perm_swap.
  - eapply perm_trans; eauto.
Qed.

Lemma rows_of_filter (p : Row -> bool) (rows : list Row) (k : nat) :
  map snd (filter (fun e => p (snd e)) (combine (seq k (List.length rows)) rows))
  = filter p rows.
Proof.
  revert k. induction rows as [|r rows IH]; intro k; simpl; [reflexivity|].
  destruct (p r); simpl; now rewrite IH.
Qed.

Lemma numeric_rows_of_table (rows : list Row) :
  map snd (numeric_rows (frame_of rows))
  = filter (fun r => isnumeric (message_length_raw r)) rows.
Proof.
  unfold numeric_rows, frame_of, mask.
  apply (rows_of_filter (fun r => isnumeric (message_length_raw r))).
Qed.

Lemma Forall2_in_l {A B} (R : A -> B -> Prop) (l : list A) (l' : list B) (x : A) :
  Forall2 R l l' -> In x l -> exists y, In y l' /\ R x y.
Proof.
  induction 1 as [|a b l l' Hab _ IH]; intros [].
  - subst a. exists b. split; [now left | exact Hab].
  - destruct (IH H) as [y [Hy Ry]]. exists y. split; [now right | exact Ry].
Qed.

Lemma Forall2_functional {A B} (R : A -> B -> Prop) (l : list A) (u v : list B) :
  (forall a b b', R a b -> R a b' -> b = b') ->
  Forall2 R l u -> Forall2 R l v -> u = v.
Proof.
  intros Fn H. revert v. induction H as [|a b l u Rab _ IH]; intros v Hv.
  - now inversion Hv.
  - inversion Hv as [|a' b' l' v' Rab' Hv']; subst.
    now rewrite (Fn a b b' Rab Rab'), (IH v' Hv').
Qed.

Lemma converted_cells parse (nr : DataFrame) (nf : NumericFrame) :
  Forall2 (converted parse) nr nf ->
  Forall2 (cells_of parse) (map snd nr) (map snd nf).
Proof.
  induction 1 as [|e n nr nf [_ C] _ IH]; simpl; constructor; assumption.
Qed.

Lemma cells_functional parse (r : Row) (n n' : NumericRow) :
  cells_of parse r n -> cells_of parse r n' -> n = n'.
Proof.
  destruct n as [x y], n' as [x' y']. unfold cells_of. simpl.
  intros [A B] [A' B']. congruence.
Qed.

Lemma col_length_rows (nf : NumericFrame) :
  col_length nf = map message_length (map snd nf).
Proof. unfold col_length. now rewrite map_map. Qed.

Lemma col_gas_rows (nf : NumericFrame) :
  col_gas nf = map gas_used (map snd nf).
Proof. unfold col_gas. now rewrite map_map. Qed.

(** The fit looks at the rows only, not at their labels. *)
Lemma fit_rows_perm (nf nf' : NumericFrame) :
  Permutation (map snd nf) (map snd nf') -> result_eq (fit nf) (fit nf').
Proof.
  intro P. unfold fit, linregress.
  rewrite !col_length_rows, !col_gas_rows.
  assert (L : List.length nf = List.length nf').
  { rewrite <- (length_map snd nf), <- (length_map snd nf').
    apply Permutation_length, P. }
  rewrite !length_map, L.
  destruct ((List.length nf' =? 0)%nat || (List.length nf' =? 0)%nat);
    [reflexivity|].
  rewrite (Qeq_bool_compat _ _ _ _
             (amax_perm _ _ (Permutation_map message_length P))
             (amin_perm _ _ (Permutation_map message_length P))).
  destruct (Qeq_bool (amax (map message_length (map snd nf')))
                     (amin (map message_length (map snd nf')))
            && (1 <? List.length nf')%nat); [reflexivity|].
  unfold result_eq. cbn [slope intercept r_squared]. split; [|split].
  - apply fdiv_compat; apply cov_perm; exact P.
  - apply fsub_compat; [now apply mean_perm|].
    apply fmul_compat; [|now apply mean_perm].
    apply fdiv_compat; apply cov_perm; exact P.
  - apply rvalue_squared_compat; apply cov_perm; exact P.
Qed.

Lemma small_rows_rows (nf : NumericFrame) :
  map snd (small_rows nf)
  = filter (fun n => Qle_bool (message_length n) 200) (map snd nf).
Proof.
  unfold small_rows. induction nf as [|e nf IH]; simpl; [reflexivity|].
  destruct (Qle_bool (message_length (snd e)) 200); simpl; now rewrite IH.
Qed.

(** X13. The order of the rows in the table does not matter to the
    regression: if a table converts, so does every reordering of it, into
    the same numeric rows up to order, and the full fit and the
    small-message fit of the two runs agree (same exception, or the same
    slope, intercept and r_squared). *)
Theorem row_order_irrelevant parse (rows rows' : list Row) (nf : NumericFrame) :
  Permutation rows rows' ->
  outcome (convert parse (numeric_rows (frame_of rows))) = inr nf ->
  exists nf',
    outcome (convert parse (numeric_rows (frame_of rows'))) = inr nf' /\
    Permutation (map snd nf) (map snd nf') /\
    result_eq (fit (sort_values nf)) (fit (sort_values nf')) /\
    result_eq (fit (small_rows (sort_values nf)))
              (fit (small_rows (sort_values nf'))).
Proof.
  intros P C.
  pose proof (convert_forall2 parse _ nf C) as F.
  assert (Pn : Permutation (map snd (numeric_rows (frame_of rows)))
                           (map snd (numeric_rows (frame_of rows')))).
  { rewrite !numeric_rows_of_table. now apply filter_perm. }
  destruct (outcome (convert parse (numeric_rows (frame_of rows'))))
    as [e|nf'] eqn:C'.
  - exfalso. destruct (convert_inl parse _ e C') as [_ Ex].
    apply Exists_exists in Ex. destruct Ex as [e' [He' Bad]].
    assert (I : In (snd e') (map snd (numeric_rows (frame_of rows))))
      by (eapply Permutation_in; [apply Permutation_sym, Pn | now apply in_map]).
    apply in_map_iff in I. destruct I as [e0 [E0 He0]].
    destruct (Forall2_in_l _ _ _ e0 F He0) as [n [_ [_ [L G]]]].
    rewrite E0 in L, G. destruct Bad as [B|B]; congruence.
  - exists nf'. split; [reflexivity|].
    pose proof (convert_forall2 parse _ nf' C') as F'.
    apply converted_cells in F, F'.
    destruct (Permutation_Forall2 Pn F) as [l2 [P2 F2]].
    assert (E2 : l2 = map snd nf')
      by exact (Forall2_functional _ _ _ _ (cells_functional parse) F2 F').
    subst l2.
    assert (Ps : Permutation (map snd (sort_values nf))
                             (map snd (sort_values nf'))).
    { eapply perm_trans;
        [apply Permutation_map, sort_values_perm|].
      eapply perm_trans; [exact P2|].
      apply Permutation_sym, Permutation_map, sort_values_perm. }
    split; [exact P2|]. split.
    + now apply fit_rows_perm.
    + apply fit_rows_perm. rewrite !small_rows_rows. now apply filter_perm.
Qed.

Lemma row_order_irrelevant_witness :
  exists nf',
    outcome (convert parse_decimal (numeric_rows (frame_of (rev example_rows))))
      = inr nf' /\
    result_eq (fit (sort_values example_numeric)) (fit (sort_values nf')).
Proof.
  assert (C : outcome (convert parse_decimal
                         (numeric_rows (frame_of example_rows)))
              = inr example_numeric) by (vm_compute; reflexivity).
  destruct (row_order_irrelevant parse_decimal example_rows (rev example_rows)
              example_numeric (Permutation_rev example_rows) C)
    as [nf' [C' [_ [R _]]]].
  exists nf'. split; [exact C' | exact R].
Defined.
